(** * Video controller: read-through response cache and listing query

    A shallow embedding of [src/controllers/video.controller.js].  The
    handlers are state-passing functions over a [World] holding the record
    store, the key-value cache and a chronological trace of the effects a
    handler performed; an exception thrown by a handler ([throw new
    ApiError(...)]) is an error result that keeps the effects performed
    before it. *)

From Stdlib Require Import ZArith List String Ascii Bool Lia Permutation Sorted.
From Stdlib Require Import OrdersEx DecimalString.
From stdpp Require Import gmap strings list fin_maps sorting.

Local Open Scope string_scope.
Local Open Scope Z_scope.
Local Open Scope list_scope.

(** ** JavaScript string primitives

    A JavaScript string is held as the bytes of its UTF-8 form.  [split],
    [trim] and truthiness are written out here; [toLowerCase] and
    [parseInt], whose tables and rounding belong to the runtime, are taken
    from it (see [Collaborators]).  [includes] and [asciiLower] are the
    vocabulary in which the properties speak about containment and about
    case on ASCII text. *)

Module Js.

(** The lower-case form of an ASCII letter; any other byte is itself. *)
Definition lowerAscii (c : ascii) : ascii :=
  let n := nat_of_ascii c in
  if ((65 <=? n)%nat && (n <=? 90)%nat)%bool then ascii_of_nat (n + 32) else c.

(** What [toLowerCase] gives on ASCII text. *)
Fixpoint asciiLower (s : string) : string :=
  match s with
  | EmptyString => EmptyString
  | String c s' => String (lowerAscii c) (asciiLower s')
  end.

(** The text has ASCII characters only. *)
Fixpoint isAscii (s : string) : bool :=
  match s with
  | EmptyString => true
  | String c s' => (nat_of_ascii c <? 128)%nat && isAscii s'
  end.

(** [s.split(" ")]: splits at every single space; the empty string gives
    one empty piece and two adjacent spaces give an empty piece. *)
Fixpoint split_space (s : string) : list string :=
  match s with
  | EmptyString => [EmptyString]
  | String c s' =>
      if Ascii.eqb c " "%char then EmptyString :: split_space s'
      else match split_space s' with
           | [] => [String c EmptyString]
           | w :: ws => String c w :: ws
           end
  end.

(** The white space that takes one byte: TAB, LF, VT, FF, CR and SPACE. *)
Definition isSpace (c : ascii) : bool :=
  let n := nat_of_ascii c in
  ((9 <=? n)%nat && (n <=? 13)%nat)%bool || (n =? 32)%nat.

(** The white space that takes three bytes: U+1680, U+2000 to U+200A,
    U+2028, U+2029, U+202F, U+205F, U+3000 and U+FEFF. *)
Definition isSpace3 (a b c : ascii) : bool :=
  let x := nat_of_ascii a in
  let y := nat_of_ascii b in
  let z := nat_of_ascii c in
  ((x =? 225) && (y =? 154) && (z =? 128)
   || (x =? 226) && (y =? 128)
      && ((128 <=? z) && (z <=? 138) || (z =? 168) || (z =? 169) || (z =? 175))
   || (x =? 226) && (y =? 129) && (z =? 159)
   || (x =? 227) && (y =? 128) && (z =? 128)
   || (x =? 239) && (y =? 187) && (z =? 191))%nat.

(** The number of bytes of the white-space or line-terminator character
    the text starts with (ECMAScript [WhiteSpace] and [LineTerminator]),
    0 when it starts with none; U+00A0 takes the two bytes 194 160. *)
Definition spaceWidth (s : string) : nat :=
  match s with
  | EmptyString => 0
  | String a r =>
      if isSpace a then 1
      else match r with
           | EmptyString => 0
           | String b r' =>
               if ((nat_of_ascii a =? 194) && (nat_of_ascii b =? 160))%nat then 2
               else match r' with
                    | EmptyString => 0
                    | String c _ => if isSpace3 a b c then 3 else 0
                    end
           end
  end%nat.

Fixpoint dropBytes (n : nat) (s : string) : string :=
  match n, s with
  | S n', String _ s' => dropBytes n' s'
  | _, _ => s
  end.

(** [trimStart] in at most [fuel] steps, each of which drops one leading
    white-space character. *)
Fixpoint trimStartWithin (fuel : nat) (s : string) : string :=
  match fuel with
  | O => s
  | S fuel' =>
      match spaceWidth s with
      | O => s
      | w => trimStartWithin fuel' (dropBytes w s)
      end
  end.

(** [String.prototype.trimStart]; no text has more white-space characters
    than bytes. *)
Definition trimStart (s : string) : string :=
  trimStartWithin (String.length s) s.

(** The text is white space throughout. *)
Definition isBlank (s : string) : bool := String.eqb (trimStart s) "".

(** [String.prototype.trimEnd]: the text is cut where only white space
    follows. *)
Fixpoint trimEnd (s : string) : string :=
  match s with
  | EmptyString => EmptyString
  | String c s' => if isBlank s then EmptyString else String c (trimEnd s')
  end.

(** [String.prototype.trim]. *)
Definition trim (s : string) : string := trimEnd (trimStart s).

(** [value?.trim() === ""] for a value that is [undefined] or a string. *)
Definition trimsToEmpty (v : option string) : bool :=
  match v with
  | None => false
  | Some s => String.eqb (trim s) ""
  end.

(** Truthiness of a value that is [undefined] or a string. *)
Definition truthy (v : option string) : bool :=
  match v with
  | None => false
  | Some s => negb (String.eqb s "")
  end.

(** Substring test, [s.includes(t)]. *)
Fixpoint includes (t s : string) : bool :=
  String.prefix t s ||
  match s with
  | EmptyString => false
  | String _ s' => includes t s'
  end.

End Js.

(** ** Data model *)

Record Asset := mkAsset { url : string; public_id : string }.

(** A video record; [O] is the type of the owner field: an identifier in
    the store, a resolved account projection in a response. *)
Record VideoOf (O : Type) := mkVideo {
  _id : string;
  title : string;
  description : string;
  tags : list string;
  videoAsset : Asset;
  thumbnail : Asset;
  duration : string;
  owner : O;
  isPublished : bool;
  createdAt : Z
}.
Arguments mkVideo {O}.
Arguments _id {O}.
Arguments title {O}.
Arguments description {O}.
Arguments tags {O}.
Arguments videoAsset {O}.
Arguments thumbnail {O}.
Arguments duration {O}.
Arguments owner {O}.
Arguments isPublished {O}.
Arguments createdAt {O}.

Record User := mkUser {
  user_id : string;
  username : string;
  fullName : string;
  email : string;
  avatar : string;
  coverImage : string;
  password : string
}.

(** The account projection embedded in responses.  The listing's [$lookup]
    projects [coverImage] too, [populate] does not select it. *)
Record OwnerStub := mkStub {
  stub_id : string;
  stub_username : string;
  stub_fullName : string;
  stub_email : string;
  stub_avatar : string;
  stub_coverImage : option string
}.

Definition Video := VideoOf string.
Definition VideoDoc := VideoOf (option OwnerStub).

Definition setOwner {A B} (v : VideoOf A) (o : B) : VideoOf B :=
  mkVideo (_id v) (title v) (description v) (tags v) (videoAsset v)
          (thumbnail v) (duration v) o (isPublished v) (createdAt v).

(** The [data] field of a response envelope. *)
Inductive Payload :=
| DataPage (videos : list VideoDoc) (totalVideos totalPages currentPage : Z)
           (hasNextPage hasPrevPage : bool)
| DataDoc (d : VideoDoc)
| DataDocs (ds : list VideoDoc)
| DataVideo (v : Video)
| DataEmpty
| DataText (s : string).

(** [new ApiResponse(statusCode, data, message)]. *)
Record ApiResponse := mkResponse {
  statusCode : Z;
  data : Payload;
  message : option string
}.

(** What a handler can throw. [CastError] is mongoose refusing to cast an
    identifier, [TypeError] a property read on [undefined], [StoreError]
    the record store refusing a query. *)
Inductive Exn :=
| ApiError (status : Z) (msg : string)
| CastError
| TypeError
| StoreError.

(** [res.status(code).json(body)]. *)
Record Reply := mkReply { replyStatus : Z; replyBody : ApiResponse }.

(** The result of the object-storage upload. *)
Record Upload := mkUpload {
  up_public_id : option string;
  up_secure_url : string;
  up_duration : option Z
}.

(** ** Effects *)

Inductive DbOp :=
| Aggregate
| FindById (id : string)
| Find
| FindByIdAndUpdate (id : string)
| FindByIdAndDelete (id : string)
| UpdateMany
| Create.

Inductive Event :=
| EvDb (op : DbOp)
| EvCacheGet (key : string)
| EvCacheSet (key : string)
| EvCacheDel (key : string)
| EvCacheDelGroup (tag : string)
| EvUpload (path : option string).

Definition isDb (e : Event) : bool :=
  match e with EvDb _ => true | _ => false end.

Definition isDbWrite (e : Event) : bool :=
  match e with
  | EvDb (FindByIdAndUpdate _) | EvDb (FindByIdAndDelete _)
  | EvDb UpdateMany | EvDb Create => true
  | _ => false
  end.

Definition isCacheEvent (e : Event) : bool :=
  match e with
  | EvCacheGet _ | EvCacheSet _ | EvCacheDel _ | EvCacheDelGroup _ => true
  | _ => false
  end.

Definition isInvalidation (e : Event) : bool :=
  match e with
  | EvCacheDel _ | EvCacheDelGroup _ => true
  | _ => false
  end.

Record World := mkWorld {
  videos : list Video;
  users : list User;
  cache : gmap string ApiResponse;
  trace : list Event
}.

Inductive Result (A : Type) :=
| Ok (a : A)
| Throw (e : Exn).
Arguments Ok {A}.
Arguments Throw {A}.

(** Handlers run in a state monad with exceptions; the world reached when
    an exception is thrown is kept. *)
Definition M (A : Type) : Type := World -> Result A * World.

Definition ret {A} (a : A) : M A := fun w => (Ok a, w).
Definition throw {A} (e : Exn) : M A := fun w => (Throw e, w).
Definition bind {A B} (m : M A) (k : A -> M B) : M B :=
  fun w => match m w with
           | (Ok a, w') => k a w'
           | (Throw e, w') => (Throw e, w')
           end.

Notation "'do' x <- m ; k" := (bind m (fun x => k))
  (at level 10, x name, m at level 100, k at level 200).
Notation "'run' m ; k" := (bind m (fun _ => k))
  (at level 10, m at level 100, k at level 200).

Definition emit (e : Event) : M unit :=
  fun w => (Ok tt, mkWorld (videos w) (users w) (cache w) (trace w ++ [e])).
Definition getVideos : M (list Video) := fun w => (Ok (videos w), w).
Definition getUsers : M (list User) := fun w => (Ok (users w), w).
Definition putVideos (vs : list Video) : M unit :=
  fun w => (Ok tt, mkWorld vs (users w) (cache w) (trace w)).
Definition getCache : M (gmap string ApiResponse) := fun w => (Ok (cache w), w).
Definition putCache (c : gmap string ApiResponse) : M unit :=
  fun w => (Ok tt, mkWorld (videos w) (users w) c (trace w)).

(** ** External collaborators

    The JavaScript runtime, the document store's query engine, the
    identifier library and the object storage are not part of the
    controller; the handlers are written against this interface. *)

(** The [$match] document of the listing: the free-text query and the
    owner, where the request has them. *)
Record SearchQuery := mkSearch {
  sqText : option string;
  sqOwner : option string
}.

Class Collaborators := {
  (** [String.prototype.toLowerCase]. *)
  toLowerCase : string -> string;
  (** [parseInt(s, 10)] as the integer it denotes; [None] when the result
      is [NaN] or not finite. *)
  parseInt : string -> option Z;
  (** mongoose's [isValidObjectId]. *)
  isValidObjectId : string -> bool;
  (** [new Types.ObjectId(s)] and mongoose's cast of an identifier: the
      canonical form under which identifiers are stored. *)
  castObjectId : string -> string;
  (** The store's [$regex] operator with option ["i"]: pattern, subject. *)
  regexSearchI : string -> string -> bool;
  (** The store's [$sort] stage, given the keys of the sort document with
      their directions (1 or -1).  It reorders its input. *)
  sortStage : list (string * Z) -> list Video -> list Video;
  sortStage_perm : forall keys l, sortStage keys l ≡ₚ l;
  (** The store accepts the listing's aggregation: the pattern of the
      query compiles, the sort document is legal, skip and limit are in
      range.  The arguments are the [$match] document, the sort document
      and the page and limit options. *)
  storeAccepts : SearchQuery -> list (string * Z) -> option Z -> option Z -> bool;
  (** [uploadOnCloudinary(localPath)]; [None] is a null result. *)
  uploadOnCloudinary : option string -> option Upload;
  (** [formatDuration(seconds)]. *)
  formatDuration : option Z -> string;
  (** What [Video.create] fills in by itself for a collection: the fresh
      [_id], the schema default of [isPublished], and [createdAt]. *)
  schemaDefaults : list Video -> string * bool * Z
}.

(** ** Cache keys *)

(** A parameter value as it reaches the key builder. *)
Inductive JsValue :=
| VUndefined
| VNum (n : Z)
| VStr (s : string).

Definition decimal (n : Z) : string :=
  DecimalString.NilZero.string_of_int (Z.to_int n).

(** Canonical stringification; an absent value has the empty image. *)
Definition stringify (v : JsValue) : string :=
  match v with
  | VUndefined => ""
  | VNum n => decimal n
  | VStr s => s
  end.

Definition nameLe (a b : string * string) : Prop :=
  Is_true (String.leb a.1 b.1).

#[global] Instance nameLe_dec a b : Decision (nameLe a b).
Proof. unfold nameLe. apply _. Defined.

Fixpoint lookupName (n : string) (l : list (string * string)) : option string :=
  match l with
  | [] => None
  | (k, v) :: l' => if String.eqb k n then Some v else lookupName n l'
  end.

(** A parameter is kept in the key when it is neither absent (empty
    image) nor equal to the default of its name. *)
Definition keptParam (defaults : list (string * string)) (p : string * string) : bool :=
  negb (String.eqb p.2 "") &&
  match lookupName p.1 defaults with
  | Some d => negb (String.eqb d p.2)
  | None => true
  end.

Fixpoint joinPairs (l : list (string * string)) : string :=
  match l with
  | [] => ""
  | [(k, v)] => k +:+ "=" +:+ v
  | (k, v) :: l' => k +:+ "=" +:+ v +:+ "&" +:+ joinPairs l'
  end.

(** Modelled from the spec: the key builder of [utils/redis.util.js], which
    is not among the sources.  Section 4.1: parameter names are sorted
    lexicographically, [name=value] pairs are concatenated with a stable
    delimiter and prefixed with the kind ([kind:sortedParams]); values are
    stringified canonically; absent and default parameters are omitted. *)
Definition buildKey (defaults : list (string * string)) (kind : string)
    (params : list (string * JsValue)) : string :=
  let images := (fun p : string * JsValue => (p.1, stringify p.2)) <$> params in
  kind +:+ ":" +:+
  joinPairs (merge_sort nameLe (List.filter (keptParam defaults) images)).

(** The second argument of [generateCacheKey]: the query object of a
    listing, or the identifier of a single entity. *)
Inductive KeyArg :=
| KParams (p : list (string * string))
| KId (id : string).

(** The defaults of the listing's parameters, from the destructuring at
    the head of [getAllVideos]. *)
Definition listingDefaults : list (string * string) :=
  [("page", "1"); ("limit", "10"); ("sortBy", "createdAt"); ("sortType", "desc")].

(** Modelled from the spec: [generateCacheKey] of [utils/redis.util.js].
    A mapping goes through [buildKey]; a single entity has the simpler
    shape [kind:id]. *)
Definition generateCacheKey (kind : string) (arg : KeyArg) : string :=
  match arg with
  | KParams p =>
      buildKey listingDefaults kind ((fun kv : string * string => (kv.1, VStr kv.2)) <$> p)
  | KId id => kind +:+ ":" +:+ id
  end.
Arguments generateCacheKey : simpl never.

(** ** Cache operations *)

(** Modelled from the spec: [checkCache] of [utils/redis.util.js], the
    [get] of section 4.2 on the shared store: the entry or a miss. *)
Definition checkCache (key : string) : M (option ApiResponse) :=
  run emit (EvCacheGet key);
  do c <- getCache;
  ret (c !! key).

(** Modelled from the spec: [setCache] of [utils/redis.util.js], the [set]
    of section 4.2.  The time to live is not represented: no time passes
    inside or between the operations of a run. *)
Definition setCache (response : ApiResponse) (key : string) : M unit :=
  run emit (EvCacheSet key);
  do c <- getCache;
  putCache (<[key := response]> c).

(** Modelled from the spec: [revalidateCache] of [utils/redis.util.js],
    the [delete] of section 4.2 ([invalidate(kind, id)] of 4.5); deleting
    an absent key is a no-op. *)
Definition revalidateCache (key : string) : M unit :=
  run emit (EvCacheDel key);
  do c <- getCache;
  putCache (delete key c).

(** Modelled from the spec: [revalidateRelatedCaches] of
    [utils/redis.util.js], the [invalidateGroup] of section 4.5 realised
    by [deleteByPrefix] (4.2): the key name space carries the kind as a
    prefix (section 9), and every key under it is deleted. *)
Definition revalidateRelatedCaches (tag : string) : M unit :=
  run emit (EvCacheDelGroup tag);
  do c <- getCache;
  putCache (filter (fun kv : string * ApiResponse => String.prefix tag kv.1 = false) c).

(** ** Record store operations *)

Definition hasId `{Collaborators} (id : string) (v : Video) : bool :=
  String.eqb (_id v) (castObjectId id).

(** [Video.findById(id)]: mongoose casts the identifier before it queries;
    a failed cast rejects without reaching the store. *)
Definition findById `{Collaborators} (id : string) : M (option Video) :=
  if isValidObjectId id then
    run emit (EvDb (FindById id));
    do vs <- getVideos;
    ret (List.find (hasId id) vs)
  else throw CastError.

(** [Video.findByIdAndUpdate(id, {$set: ...}, {new: true})]: the updated
    record, or null when there is none. *)
Definition findByIdAndUpdate `{Collaborators} (id : string) (upd : Video -> Video)
  : M (option Video) :=
  if isValidObjectId id then
    run emit (EvDb (FindByIdAndUpdate id));
    do vs <- getVideos;
    match List.find (hasId id) vs with
    | Some v =>
        run putVideos ((fun x => if hasId id x then upd x else x) <$> vs);
        ret (Some (upd v))
    | None => ret None
    end
  else throw CastError.

(** [Video.findByIdAndDelete(id)]: the deleted record, or null. *)
Definition findByIdAndDelete `{Collaborators} (id : string) : M (option Video) :=
  if isValidObjectId id then
    run emit (EvDb (FindByIdAndDelete id));
    do vs <- getVideos;
    match List.find (hasId id) vs with
    | Some v =>
        run putVideos (List.filter (fun x => negb (hasId id x)) vs);
        ret (Some v)
    | None => ret None
    end
  else throw CastError.

Definition stubOf (withCover : bool) (u : User) : OwnerStub :=
  mkStub (user_id u) (username u) (fullName u) (email u) (avatar u)
         (if withCover then Some (coverImage u) else None).

(** The owner reference resolved against the accounts: the [$lookup] with
    its [$project] followed by [$first], and [populate] with its [select].
    A reference to no account leaves the field empty. *)
Definition resolveOwner (withCover : bool) (us : list User) (v : Video) : VideoDoc :=
  setOwner v (stubOf withCover <$>
              List.find (fun u => String.eqb (user_id u) (owner v)) us).

(** ** Pagination *)

Record PageResult := mkPage {
  docs : list VideoDoc;
  totalDocs : Z;
  pg_totalPages : Z;
  pg_page : Z;
  pg_hasNextPage : bool;
  pg_hasPrevPage : bool
}.

(** The page size in force: the requested one when it is positive, else 10. *)
Definition effectiveLimit (l : option Z) : Z :=
  match l with
  | Some n => if 0 <? n then n else 10
  | None => 10
  end.

(** The page in force: the magnitude of the requested one, 1 for 0 or NaN. *)
Definition effectivePage (p : option Z) : Z :=
  match p with
  | Some n => if n =? 0 then 1 else Z.abs n
  | None => 1
  end.

Definition pageSlice {A} (page limit : Z) (l : list A) : list A :=
  take (Z.to_nat limit) (drop (Z.to_nat ((page - 1) * limit)) l).

(** [Math.ceil(count / limit) || 1]. *)
Definition pageCount (total limit : Z) : Z :=
  if total =? 0 then 1 else (total + limit - 1) / limit.

(** Modelled from the spec: [Video.aggregatePaginate], attached to the
    model by [models/video.model.js], which is not among the sources.
    Section 4.4 step 5: skip [(page-1)*limit] matched-and-sorted records,
    take [limit], count the matches before pagination and derive the
    page count, has-next and has-previous from that count. *)
Definition paginate (page limit : option Z) (matched : list VideoDoc) : PageResult :=
  let p := effectivePage page in
  let l := effectiveLimit limit in
  let total := Z.of_nat (length matched) in
  let pages := pageCount total l in
  mkPage (pageSlice p l matched) total pages p (p <? pages) (1 <? p).
Arguments paginate : simpl never.

(** ** The controller *)

Record Request := mkRequest {
  query : list (string * string);        (* req.query *)
  paramId : string;                      (* req.params.id *)
  bodyTitle : option string;             (* req.body.title *)
  bodyDescription : option string;       (* req.body.description *)
  bodyTags : option (list string);       (* req.body.tags *)
  bodyIsPublished : option bool;         (* req.body.isPublished *)
  filePath : option string;              (* req.file?.path *)
  videoFilePath : option string;         (* (req.files?.videoFile ?? [])[0]?.path *)
  thumbnailFilePath : option string;     (* (req.files?.thumbnail ?? [])[0]?.path *)
  reqUserId : string                     (* req.user._id *)
}.

Section Controller.
Context `{C : Collaborators}.

(** [{ tags: { $in: candidates } }]: some tag of the record is among the
    candidates. *)
Definition tagsIn (candidates : list string) (v : Video) : bool :=
  existsb (fun t => existsb (String.eqb t) candidates) (tags v).

(** The three alternatives of [$or] for a free-text query [q]. *)
Definition matchesText (q : string) (v : Video) : bool :=
  regexSearchI q (title v)
  || regexSearchI q (description v)
  || tagsIn (toLowerCase <$> Js.split_space q) v.

Definition matchesSearch (sq : SearchQuery) (v : Video) : bool :=
  isPublished v
  && match sqText sq with Some q => matchesText q v | None => true end
  && match sqOwner sq with Some o => String.eqb (owner v) o | None => true end.

(** The aggregation pipeline: [$match], [$sort], [$lookup] and [$set]. *)
Definition runPipeline (sq : SearchQuery) (sortQuery : list (string * Z))
    (vs : list Video) (us : list User) : list VideoDoc :=
  resolveOwner true us <$>
    sortStage sortQuery (List.filter (matchesSearch sq) vs).

(** [Video.aggregatePaginate(aggregateQuery, options)]: one query to the
    store, which either refuses it (the promise rejects and the handler
    throws) or runs the pipeline and paginates its result ([paginate]). *)
Definition aggregatePaginate (sq : SearchQuery) (sortQuery : list (string * Z))
    (page limit : option Z) : M PageResult :=
  run emit (EvDb Aggregate);
  if storeAccepts sq sortQuery page limit then
    do vs <- getVideos;
    do us <- getUsers;
    ret (paginate page limit (runPipeline sq sortQuery vs us))
  else throw StoreError.

(** A numeric option: the default 1 or 10 when the parameter is missing,
    else [parseInt] of the text. *)
Definition intParam (name : string) (dflt : Z) (qs : list (string * string)) : option Z :=
  match lookupName name qs with
  | None => Some dflt
  | Some s => parseInt s
  end.

(** The sort document, as the list of its own keys.  The assignment
    [sortQuery[sortBy] = ...] creates the key [sortBy], except for the
    name [__proto__], which reaches the prototype setter: that one
    ignores a number, and the document stays empty. *)
Definition sortQueryOf (qs : list (string * string)) : list (string * Z) :=
  let sortBy := default "createdAt" (lookupName "sortBy" qs) in
  let sortType := default "desc" (lookupName "sortType" qs) in
  if negb (String.eqb sortBy "")
  then if String.eqb sortBy "__proto__" then []
       else [(sortBy, if String.eqb sortType "desc" then -1 else 1)]
  else [("createdAt", -1)].

Definition getAllVideos (req : Request) : M Reply :=
  let qs := query req in
  let userId := lookupName "userId" qs in
  let q := lookupName "q" qs in
  let text := if Js.truthy q then q else None in
  do searchQuery <-
    (match userId with
     | Some uid =>
         if Js.truthy userId then
           if negb (isValidObjectId uid)
           then throw (ApiError 400 "Invalid User Id")
           else ret (mkSearch text (Some (castObjectId uid)))
         else ret (mkSearch text None)
     | None => ret (mkSearch text None)
     end);
  let sortQuery := sortQueryOf qs in
  let cacheKey := generateCacheKey "all-videos" (KParams qs) in
  do cachedRes <- checkCache cacheKey;
  match cachedRes with
  | Some r => ret (mkReply 200 r)
  | None =>
      do result <- aggregatePaginate searchQuery sortQuery
                     (intParam "page" 1 qs) (intParam "limit" 10 qs);
      let response :=
        mkResponse 200
          (DataPage (docs result) (totalDocs result) (pg_totalPages result)
                    (pg_page result) (pg_hasNextPage result)
                    (pg_hasPrevPage result))
          (Some "Videos found") in
      run setCache response cacheKey;
      ret (mkReply 200 response)
  end.

Definition getVideoById (req : Request) : M Reply :=
  let videoId := paramId req in
  let cacheKey := generateCacheKey "video" (KId videoId) in
  do _unused <- checkCache cacheKey;
  do found <- findById videoId;
  match found with
  | None => throw (ApiError 404 "Video not found")
  | Some v =>
      do us <- getUsers;
      let response :=
        mkResponse 200 (DataDoc (resolveOwner false us v)) (Some "Video found") in
      run setCache response cacheKey;
      ret (mkReply 200 response)
  end.

(** [upload?.public_id] when it is truthy: an identifier that is missing
    or empty counts as none. *)
Definition publicId (u : option Upload) : option string :=
  match u with
  | Some up => if Js.truthy (up_public_id up) then up_public_id up else None
  | None => None
  end.
Arguments publicId : simpl never.

Definition updateVideoById (req : Request) : M Reply :=
  let thumbnailLocalPath := filePath req in
  if forallb Js.trimsToEmpty [bodyTitle req; bodyDescription req; thumbnailLocalPath]
  then throw (ApiError 400 "Please provide All required fields")
  else
    run emit (EvUpload thumbnailLocalPath);
    let uploaded := uploadOnCloudinary thumbnailLocalPath in
    match uploaded, publicId uploaded with
    | Some up, Some pid =>
        do updated <- findByIdAndUpdate (paramId req) (fun v =>
          mkVideo (_id v)
                  (default (title v) (bodyTitle req))
                  (default (description v) (bodyDescription req))
                  (tags v) (videoAsset v)
                  (mkAsset (up_secure_url up) pid)
                  (duration v) (owner v) (isPublished v) (createdAt v));
        match updated with
        | None => throw (ApiError 500 "Failed to update video")
        | Some video =>
            let cacheKey := generateCacheKey "video" (KId (paramId req)) in
            run revalidateCache cacheKey;
            run revalidateRelatedCaches "all-videos";
            ret (mkReply 200 (mkResponse 200 (DataVideo video) (Some "Video updated")))
        end
    | _, _ => throw (ApiError 500 "Failed to update thumbnail")
    end.

(** [Video.updateMany({}, {$set: ...})]: the number of records the
    update changed. *)
Definition updateMany (upd : Video -> Video) (changed : Video -> bool) : M Z :=
  run emit (EvDb UpdateMany);
  do vs <- getVideos;
  run putVideos (upd <$> vs);
  ret (Z.of_nat (length (List.filter changed vs))).

Definition listEqb (a b : list string) : bool :=
  bool_decide (a = b).

Definition updateAllVideo (req : Request) : M Reply :=
  let title' := bodyTitle req in
  let description' := bodyDescription req in
  do invalid <-
    (if forallb Js.trimsToEmpty [title'; description'] then ret true
     else match bodyTags req with
          | None => throw TypeError
          | Some ts => ret (Nat.eqb (length ts) 0)
          end);
  if invalid : bool then throw (ApiError 400 "Please provide All required fields")
  else
    let tags' := default [] (bodyTags req) in
    let upd v :=
      mkVideo (_id v) (default (title v) title') (default (description v) description')
              tags' (videoAsset v) (thumbnail v) (duration v) (owner v)
              (isPublished v) (createdAt v) in
    do modifiedCount <- updateMany upd (fun v =>
      negb (String.eqb (title (upd v)) (title v)
            && String.eqb (description (upd v)) (description v)
            && listEqb (tags (upd v)) (tags v)));
    if modifiedCount =? 0 then throw (ApiError 500 "Failed to update videos")
    else
      run revalidateRelatedCaches "all-videos";
      ret (mkReply 200 (mkResponse 200 (DataText "All Videos Updated") None)).

(** [Video.create(fields)]: the record is appended with what the schema
    fills in.  A missing title or description is stored as the empty
    text: the schema, which may refuse it, is not among the sources. *)
Definition createVideo (mk : string -> bool -> Z -> Video) : M Video :=
  run emit (EvDb Create);
  do vs <- getVideos;
  let '(newId, published, now) := schemaDefaults vs in
  let v := mk newId published now in
  run putVideos (vs ++ [v]);
  ret v.

Definition publishVideo (req : Request) : M Reply :=
  let videoLocalPath := videoFilePath req in
  let thumbnailLocalPath := thumbnailFilePath req in
  if negb (Js.truthy videoLocalPath) || negb (Js.truthy thumbnailLocalPath)
  then throw (ApiError 400 "Thumbnail and Video Files are required")
  else
    do invalid <-
      (if existsb Js.trimsToEmpty [bodyTitle req; bodyDescription req] then ret true
       else match bodyTags req with
            | None => throw TypeError
            | Some ts => ret (Nat.eqb (length ts) 0)
            end);
      if invalid : bool then throw (ApiError 400 "Please provide All required fields")
    else
      run emit (EvUpload videoLocalPath);
      let videoFile := uploadOnCloudinary videoLocalPath in
      run emit (EvUpload thumbnailLocalPath);
      let thumb := uploadOnCloudinary thumbnailLocalPath in
      match videoFile, publicId videoFile with
      | Some vf, Some vpid =>
          match thumb, publicId thumb with
          | Some th, Some tpid =>
              let duration' := formatDuration (up_duration vf) in
              do video <- createVideo (fun newId published now =>
                mkVideo newId
                        (default "" (bodyTitle req))
                        (default "" (bodyDescription req))
                        (default [] (bodyTags req))
                        (mkAsset (up_secure_url vf) vpid)
                        (mkAsset (up_secure_url th) tpid)
                        duration' (reqUserId req) published now);
              run revalidateRelatedCaches "all-videos";
              ret (mkReply 201
                     (mkResponse 201 (DataVideo video)
                                 (Some "Video published successfully")))
          | _, _ => throw (ApiError 500 "Failed to upload thumbnail file")
          end
      | _, _ => throw (ApiError 500 "Failed to upload video file")
      end.

Definition deleteVideo (req : Request) : M Reply :=
  do video <- findByIdAndDelete (paramId req);
  match video with
  | None => throw (ApiError 500 "Failed to delete video")
  | Some _ =>
      let cacheKey := generateCacheKey "video" (KId (paramId req)) in
      run revalidateCache cacheKey;
      run revalidateRelatedCaches "all-videos";
      ret (mkReply 200 (mkResponse 200 DataEmpty (Some "Video deleted")))
  end.

Definition updateVideoPublishStatus (req : Request) : M Reply :=
  let videoId := paramId req in
  do video <- findByIdAndUpdate videoId (fun v =>
    mkVideo (_id v) (title v) (description v) (tags v) (videoAsset v)
            (thumbnail v) (duration v) (owner v)
            (default (isPublished v) (bodyIsPublished req)) (createdAt v));
  match video with
  | None => throw (ApiError 500 "Failed to update video publish status")
  | Some v =>
      let cacheKey := generateCacheKey "video" (KId videoId) in
      run revalidateCache cacheKey;
      run revalidateRelatedCaches "all-videos";
      ret (mkReply 200
             (mkResponse 200 (DataVideo v) (Some "Video publish status updated")))
  end.

(** [Video.find({ _id: { $ne: videoId }, tags: { $in: subjectTags } })]. *)
Definition isRelated (videoId : string) (subjectTags : list string) (v : Video) : bool :=
  negb (hasId videoId v) && tagsIn subjectTags v.

Definition findRelated (videoId : string) (subjectTags : list string) : M (list Video) :=
  run emit (EvDb Find);
  do vs <- getVideos;
  ret (List.filter (isRelated videoId subjectTags) vs).

Definition getRelatedVideos (req : Request) : M Reply :=
  let videoId := paramId req in
  if negb (isValidObjectId videoId) then throw (ApiError 400 "Invalid video Id")
  else
    do video <- findById videoId;
    match video with
    | None => throw (ApiError 404 "Video not found")
    | Some subject =>
        let cacheKey := generateCacheKey "related-videos" (KId videoId) in
        run revalidateCache cacheKey;
        do cachedRes <- checkCache cacheKey;
        match cachedRes with
        | Some r => ret (mkReply 200 r)
        | None =>
            do related <- findRelated videoId (tags subject);
            do us <- getUsers;
            let relatedVideos := resolveOwner false us <$> related in
            let response :=
              mkResponse 200 (DataDocs relatedVideos) (Some "Related videos found") in
            ret (mkReply 200 response)
        end
    end.

End Controller.

(** ** Vocabulary of the statements

    Names for the parts of a request and of a world that the properties
    below speak about. *)

Section Statements.
Context `{C : Collaborators}.

(** The owner filter of a query is usable: missing, empty, or well formed. *)
Definition ownerFilterOk (qs : list (string * string)) : bool :=
  match lookupName "userId" qs with
  | Some uid => String.eqb uid "" || isValidObjectId uid
  | None => true
  end.

(** The [$match] document [getAllVideos] builds for a query. *)
Definition searchQueryOf (qs : list (string * string)) : SearchQuery :=
  mkSearch (if Js.truthy (lookupName "q" qs) then lookupName "q" qs else None)
           (match lookupName "userId" qs with
            | Some uid => if String.eqb uid "" then None else Some (castObjectId uid)
            | None => None
            end).

Definition listingKey (req : Request) : string :=
  generateCacheKey "all-videos" (KParams (query req)).

(** The records a query matches, sorted and joined, before pagination. *)
Definition listingMatches (req : Request) (w : World) : list VideoDoc :=
  runPipeline (searchQueryOf (query req)) (sortQueryOf (query req)) (videos w) (users w).

(** The store accepts the aggregation a listing request sends. *)
Definition listingAccepted (req : Request) : bool :=
  storeAccepts (searchQueryOf (query req)) (sortQueryOf (query req))
               (intParam "page" 1 (query req)) (intParam "limit" 10 (query req)).

Definition listingPage (req : Request) (w : World) : PageResult :=
  paginate (intParam "page" 1 (query req)) (intParam "limit" 10 (query req))
           (listingMatches req w).

Definition pageResponse (r : PageResult) : ApiResponse :=
  mkResponse 200
    (DataPage (docs r) (totalDocs r) (pg_totalPages r) (pg_page r)
              (pg_hasNextPage r) (pg_hasPrevPage r))
    (Some "Videos found").

(** The world after more events were recorded. *)
Definition logged (w : World) (evs : list Event) : World :=
  mkWorld (videos w) (users w) (cache w) (trace w ++ evs).

Definition cached (w : World) (key : string) (r : ApiResponse) : World :=
  mkWorld (videos w) (users w) (<[key := r]> (cache w)) (trace w).

Definition videoKey (req : Request) : string :=
  generateCacheKey "video" (KId (paramId req)).

Definition relatedKey (req : Request) : string :=
  generateCacheKey "related-videos" (KId (paramId req)).

(** The record a request's identifier designates, if there is one. *)
Definition target (req : Request) (w : World) : option Video :=
  List.find (hasId (paramId req)) (videos w).

Definition videoResponse (w : World) (v : Video) : ApiResponse :=
  mkResponse 200 (DataDoc (resolveOwner false (users w) v)) (Some "Video found").

(** The answer [getRelatedVideos] computes from the store. *)
Definition relatedResponse (req : Request) (w : World) (subject : Video) : ApiResponse :=
  mkResponse 200
    (DataDocs (resolveOwner false (users w) <$>
               List.filter (isRelated (paramId req) (tags subject)) (videos w)))
    (Some "Related videos found").

Definition uncached (w : World) (key : string) : World :=
  mkWorld (videos w) (users w) (delete key (cache w)) (trace w).

Inductive Mutation :=
| MPublish
| MUpdate
| MUpdateAll
| MDelete
| MPublishStatus.

Definition runMutation (m : Mutation) : Request -> M Reply :=
  match m with
  | MPublish => publishVideo
  | MUpdate => updateVideoById
  | MUpdateAll => updateAllVideo
  | MDelete => deleteVideo
  | MPublishStatus => updateVideoPublishStatus
  end.

(** The mutations that act on the record named in the request path. *)
Definition idTargeted (m : Mutation) : bool :=
  match m with
  | MUpdate | MDelete | MPublishStatus => true
  | MPublish | MUpdateAll => false
  end.

(** The invalidations a mutation owes, in the order it performs them. *)
Definition invalidations (m : Mutation) (req : Request) : list Event :=
  if idTargeted m
  then [EvCacheDel (videoKey req); EvCacheDelGroup "all-videos"]
  else [EvCacheDelGroup "all-videos"].

Definition quiet (e : Event) : bool :=
  negb (isCacheEvent e) && negb (isDb e).

(** [s] split at every white-space character. *)
Fixpoint split_whitespace (s : string) : list string :=
  match s with
  | EmptyString => [EmptyString]
  | String c s' =>
      if Js.isSpace c then EmptyString :: split_whitespace s'
      else match split_whitespace s' with
           | [] => [String c EmptyString]
           | w :: ws => String c w :: ws
           end
  end.

(** The filter in the words of the specification (section 4.4, step 1):
    published, and for a query [q] the title or the description contains
    [q] without regard to case, or a lower-cased white-space-separated
    token of [q] is among the tags. *)
Definition claimedAdmits (q : option string) (v : Video) : bool :=
  isPublished v
  && match q with
     | None => true
     | Some q =>
         Js.includes (Js.asciiLower q) (Js.asciiLower (title v))
         || Js.includes (Js.asciiLower q) (Js.asciiLower (description v))
         || tagsIn (Js.asciiLower <$> split_whitespace q) v
     end.

(** The characters a pattern does not take literally: the ones a regular
    expression reads as operators (dollar, parentheses, star, plus, dot,
    question mark, brackets, backslash, caret, braces and bar) and NUL,
    which the store refuses in a pattern; by character code. *)
Definition isMeta (c : ascii) : bool :=
  existsb (Nat.eqb (nat_of_ascii c))
          [0; 36; 40; 41; 42; 43; 46; 63; 91; 92; 93; 94; 123; 124; 125]%nat.

Definition isLiteral (q : string) : bool :=
  forallb (fun c => negb (isMeta c)) (list_ascii_of_string q).

(** On ASCII text and an ASCII pattern without operators, the engine's
    case-insensitive search is a case-insensitive substring test. *)
Definition RegexLiteralLaw : Prop :=
  forall q s, isLiteral q = true -> Js.isAscii q = true -> Js.isAscii s = true ->
              regexSearchI q s = Js.includes (Js.asciiLower q) (Js.asciiLower s).

(** On ASCII text the runtime's [toLowerCase] lowers the letters A to Z
    and nothing else. *)
Definition LowerAsciiLaw : Prop :=
  forall s, Js.isAscii s = true -> toLowerCase s = Js.asciiLower s.

(** The pieces joined again, a space between two neighbours: the inverse
    of [split(" ")]. *)
Fixpoint joinSpace (l : list string) : string :=
  match l with
  | [] => ""
  | [x] => x
  | x :: rest => x +:+ " " +:+ joinSpace rest
  end.

(** The records after the one designated by [id] was rewritten. *)
Definition rewritten (id : string) (upd : Video -> Video) (vs : list Video) : list Video :=
  (fun x => if hasId id x then upd x else x) <$> vs.

(** The persistence write of a mutation, as a relation between the
    records before and after it: publish appends the new record, built
    from the request, the two uploads and what the schema fills in; an
    update by id rewrites title, description and thumbnail of the
    designated record; the update of all rewrites title, description and
    tags of every record; delete removes the designated record; the
    publish-status change rewrites its flag. *)
Definition written (m : Mutation) (req : Request) (before after : list Video) : Prop :=
  match m with
  | MPublish =>
      exists vf vpid th tpid,
        uploadOnCloudinary (videoFilePath req) = Some vf
        /\ publicId (Some vf) = Some vpid
        /\ uploadOnCloudinary (thumbnailFilePath req) = Some th
        /\ publicId (Some th) = Some tpid
        /\ after = before ++
                    [let '(newId, published, now) := schemaDefaults before in
                     mkVideo newId (default "" (bodyTitle req))
                             (default "" (bodyDescription req))
                             (default [] (bodyTags req))
                             (mkAsset (up_secure_url vf) vpid)
                             (mkAsset (up_secure_url th) tpid)
                             (formatDuration (up_duration vf)) (reqUserId req)
                             published now]
  | MUpdate =>
      exists up pid,
        uploadOnCloudinary (filePath req) = Some up
        /\ publicId (Some up) = Some pid
        /\ List.find (hasId (paramId req)) before <> None
        /\ after = rewritten (paramId req) (fun v =>
                      mkVideo (_id v) (default (title v) (bodyTitle req))
                              (default (description v) (bodyDescription req))
                              (tags v) (videoAsset v)
                              (mkAsset (up_secure_url up) pid)
                              (duration v) (owner v) (isPublished v) (createdAt v))
                    before
  | MUpdateAll =>
      after = (fun v =>
                 mkVideo (_id v) (default (title v) (bodyTitle req))
                         (default (description v) (bodyDescription req))
                         (default [] (bodyTags req)) (videoAsset v) (thumbnail v)
                         (duration v) (owner v) (isPublished v) (createdAt v))
              <$> before
  | MDelete =>
      List.find (hasId (paramId req)) before <> None
      /\ after = List.filter (fun x => negb (hasId (paramId req) x)) before
  | MPublishStatus =>
      List.find (hasId (paramId req)) before <> None
      /\ after = rewritten (paramId req) (fun v =>
                    mkVideo (_id v) (title v) (description v) (tags v) (videoAsset v)
                            (thumbnail v) (duration v) (owner v)
                            (default (isPublished v) (bodyIsPublished req))
                            (createdAt v))
                  before
  end.

(** The three fields of an update are all blank. *)
Definition allBlank (req : Request) : bool :=
  forallb Js.trimsToEmpty [bodyTitle req; bodyDescription req; filePath req].

(** A publish request passes the checks made before anything is
    uploaded: both files present, neither title nor description blank,
    and at least one tag. *)
Definition publishChecked (req : Request) : bool :=
  Js.truthy (videoFilePath req) && Js.truthy (thumbnailFilePath req)
  && negb (existsb Js.trimsToEmpty [bodyTitle req; bodyDescription req])
  && match bodyTags req with
     | Some (_ :: _) => true
     | _ => false
     end.

(** An update-all request passes its checks: title and description not
    both blank, and at least one tag. *)
Definition updateAllChecked (req : Request) : bool :=
  negb (forallb Js.trimsToEmpty [bodyTitle req; bodyDescription req])
  && match bodyTags req with
     | Some (_ :: _) => true
     | _ => false
     end.

(** The fields of a record that no update by id and no publish-status
    change touches. *)
Definition sameIdentity (a b : Video) : Prop :=
  _id a = _id b /\ tags a = tags b /\ videoAsset a = videoAsset b
  /\ duration a = duration b /\ owner a = owner b /\ createdAt a = createdAt b.

End Statements.

Ltac run_handler :=
  repeat (unfold checkCache, setCache, revalidateCache, revalidateRelatedCaches,
            findById, findByIdAndUpdate, findByIdAndDelete, findRelated,
            createVideo, updateMany, emit, getCache, putCache, getVideos,
            putVideos, getUsers, ret, throw, bind; simpl).

Ltac run_in H :=
  repeat (unfold checkCache, setCache, revalidateCache, revalidateRelatedCaches,
            findById, findByIdAndUpdate, findByIdAndDelete, findRelated,
            createVideo, updateMany, emit, getCache, putCache, getVideos,
            putVideos, getUsers, ret, throw, bind in H; simpl in H).

(** Case analysis on an innermost scrutinee of [H]. *)
Ltac branch_in H :=
  repeat (match type of H with
          | context [match ?x with _ => _ end] =>
              lazymatch x with
              | context [match _ with _ => _ end] => fail
              | _ => destruct x eqn:?
              end
          end; run_in H; try discriminate H).

(** ** A concrete set of collaborators

    Used to run the handlers on concrete worlds of ASCII text.
    Identifiers are 24 hexadecimal digits, stored in lower case;
    lower-casing is the ASCII one; numbers are read in decimal; the store
    takes patterns without operators only, on which the pattern search is
    a case-insensitive substring search, and refuses an empty sort
    document; the sort orders by [createdAt] and leaves the order alone
    for any other key. *)

Module Demo.

Definition isDigit (c : ascii) : bool :=
  let n := nat_of_ascii c in ((48 <=? n)%nat && (n <=? 57)%nat)%bool.

Fixpoint digits (acc : option Z) (s : string) : option Z :=
  match s with
  | EmptyString => acc
  | String c s' =>
      if isDigit c then
        let d := Z.of_nat (nat_of_ascii c - 48) in
        digits (Some (match acc with Some a => 10 * a + d | None => d end)) s'
      else acc
  end.

(** The integer as a double holds it: itself below 2^53, else rounded to
    53 significant bits, ties to even; [None] when that is infinite. *)
Definition roundToDouble (n : Z) : option Z :=
  let a := Z.abs n in
  if a <? 2 ^ 53 then Some n
  else
    let e := Z.log2 a - 52 in
    let q := Z.shiftr a e in
    let r := a - Z.shiftl q e in
    let half := Z.shiftl 1 (e - 1) in
    let q' := if (half <? r) || ((r =? half) && Z.odd q) then q + 1 else q in
    let m := Z.shiftl q' e in
    if 2 ^ 1024 <=? m then None else Some (Z.sgn n * m).

(** [parseInt(s, 10)]: leading white space is skipped, one sign is read,
    then the longest run of decimal digits, whose value is rounded to a
    double; [None] when there is no digit. *)
Definition parseDecimal (s : string) : option Z :=
  match Js.trimStart s with
  | String "-"%char r => Z.opp <$> (digits None r ≫= roundToDouble)
  | String "+"%char r => digits None r ≫= roundToDouble
  | r => digits None r ≫= roundToDouble
  end.

Definition isHex (c : ascii) : bool :=
  let n := nat_of_ascii c in
  (((48 <=? n) && (n <=? 57)) || ((65 <=? n) && (n <=? 70))
   || ((97 <=? n) && (n <=? 102)))%nat.

Definition validId (s : string) : bool :=
  Nat.eqb (String.length s) 24 && forallb isHex (list_ascii_of_string s).

Definition literalSearchI (pattern subject : string) : bool :=
  Js.includes (Js.asciiLower pattern) (Js.asciiLower subject).

Definition createdLe (dir : Z) (a b : Video) : Prop :=
  if dir =? 1 then createdAt a <= createdAt b else createdAt b <= createdAt a.

#[local] Instance createdLe_dec dir a b : Decision (createdLe dir a b).
Proof. unfold createdLe. destruct (dir =? 1); apply _. Defined.

Definition sortByCreated (keys : list (string * Z)) (l : list Video) : list Video :=
  match keys with
  | [(field, dir)] =>
      if String.eqb field "createdAt" then merge_sort (createdLe dir) l else l
  | _ => l
  end.

Definition accepts (sq : SearchQuery) (keys : list (string * Z))
    (page limit : option Z) : bool :=
  match sqText sq with
  | Some q => isLiteral q
  | None => true
  end
  && negb (Nat.eqb (length keys) 0).

Definition upload (path : option string) : option Upload :=
  match path with
  | None => None
  | Some p => Some (mkUpload (Some ("cloud/" +:+ p)) ("https://cdn/" +:+ p) (Some 42))
  end.

Definition freshId (vs : list Video) : string :=
  "00000000000000000000" +:+ decimal (1000 + Z.of_nat (length vs)).

Definition collaborators : Collaborators := {|
  toLowerCase := Js.asciiLower;
  parseInt := parseDecimal;
  isValidObjectId := validId;
  castObjectId := Js.asciiLower;
  regexSearchI := literalSearchI;
  sortStage := sortByCreated;
  sortStage_perm := ltac:(intros [|[field dir] [|? ?]] vs; unfold sortByCreated;
                          try reflexivity;
                          destruct (String.eqb field "createdAt");
                          [apply merge_sort_Permutation | reflexivity]);
  storeAccepts := accepts;
  uploadOnCloudinary := upload;
  formatDuration := fun d => decimal (default 0 d);
  schemaDefaults := fun vs => (freshId vs, true, Z.of_nat (length vs))
|}.

Definition alice : User :=
  mkUser "0000000000000000000000a1" "alice" "Alice A" "alice@example.org"
         "alice.png" "alice-cover.png" "secret".

Definition video (id ttl descr : string) (tgs : list string) (pub : bool) (at_ : Z) : Video :=
  mkVideo id ttl descr tgs (mkAsset "v.mp4" "v") (mkAsset "t.png" "t") "0:42"
          "0000000000000000000000a1" pub at_.

Definition cats : Video :=
  video "000000000000000000000001" "Cats playing" "Two kittens" ["cats"] true 10.
Definition dogs : Video :=
  video "000000000000000000000002" "Dogs" "A puppy" ["dogs"] true 20.
Definition draft : Video :=
  video "000000000000000000000003" "Unlisted kittens" "Not out yet" ["cats"] false 30.

Definition world0 : World := mkWorld [cats; dogs; draft] [alice] ∅ [].

Definition request (qs : list (string * string)) (id : string) : Request :=
  mkRequest qs id None None None None None None None "0000000000000000000000a1".

End Demo.

(** * Properties *)

(** ** The handlers run *)

Example demo_listing_cats :
  fst (getAllVideos (C := Demo.collaborators) (Demo.request [("q", "cats")] "") Demo.world0)
  = Ok (mkReply 200 (mkResponse 200
         (DataPage [resolveOwner true [Demo.alice] Demo.cats] 1 1 1 false false)
         (Some "Videos found"))).
Proof. vm_compute. reflexivity. Qed.

Example demo_listing_refused :
  getAllVideos (C := Demo.collaborators) (Demo.request [("q", "(")] "") Demo.world0
  = (Throw StoreError,
     logged Demo.world0 [EvCacheGet "all-videos:q=("; EvDb Aggregate]).
Proof. vm_compute. reflexivity. Qed.

Example demo_trim :
  Js.trim "  a b  " = "a b"
  /\ Js.trim (String "194" (String "160" "")) = ""
  /\ Js.trim (String "009" (String "226" (String "128" (String "131" "x")))) = "x"
  /\ Js.trim (String "226" (String "128" (String "139" ""))) <> "".
Proof. repeat split; try (vm_compute; reflexivity). vm_compute. discriminate. Qed.

Example demo_parseInt :
  Demo.parseDecimal " 12px" = Some 12
  /\ Demo.parseDecimal "-3" = Some (-3)
  /\ Demo.parseDecimal "abc" = None
  /\ Demo.parseDecimal "9007199254740993" = Some 9007199254740992.
Proof. repeat split; vm_compute; reflexivity. Qed.

Example demo_key :
  generateCacheKey "all-videos" (KParams [("q", "cats"); ("limit", "5"); ("page", "1")])
  = "all-videos:limit=5&q=cats".
Proof. vm_compute. reflexivity. Qed.

Example demo_cache_after :
  cache (snd (getAllVideos (C := Demo.collaborators) (Demo.request [("q", "cats")] "") Demo.world0))
    !! "all-videos:q=cats"
  = Some (mkResponse 200
         (DataPage [resolveOwner true [Demo.alice] Demo.cats] 1 1 1 false false)
         (Some "Videos found")).
Proof. vm_compute. reflexivity. Qed.

(** ** Cache keys do not depend on the order of the parameters *)

Section KeyOrder.

Lemma ascii_compare_lt_trans x y z :
  Ascii.compare x y = Lt -> Ascii.compare y z = Lt -> Ascii.compare x z = Lt.
Proof.
  unfold Ascii.compare. rewrite !N.compare_lt_iff. lia.
Qed.

Lemma string_leb_trans a b c :
  String.leb a b = true -> String.leb b c = true -> String.leb a c = true.
Proof.
  unfold String.leb. revert b c.
  induction a as [|x a IH]; intros [|y b] [|z c]; simpl; try done.
  destruct (Ascii.compare x y) eqn:Hxy; try done.
  - apply Ascii.compare_eq_iff in Hxy as ->.
    destruct (Ascii.compare y z); try done. apply IH.
  - destruct (Ascii.compare y z) eqn:Hyz; try done.
    + apply Ascii.compare_eq_iff in Hyz as <-. by rewrite Hxy.
    + by rewrite (ascii_compare_lt_trans _ _ _ Hxy Hyz).
Qed.

#[local] Instance nameLe_trans : Transitive nameLe.
Proof.
  intros a b c. unfold nameLe. rewrite !Is_true_true.
  apply string_leb_trans.
Qed.

#[local] Instance nameLe_total : Total nameLe.
Proof.
  intros a b. unfold nameLe. rewrite !Is_true_true. apply String.leb_total.
Qed.

(** Two entries of a mapping with the same name are the same entry. *)
Lemma same_name_same_entry (l : list (string * string)) x y :
  NoDup l.*1 -> x ∈ l -> y ∈ l -> x.1 = y.1 -> x = y.
Proof.
  induction l as [|e l IH]; intros Hnd Hx Hy Hxy; [by inv Hx|].
  simpl in Hnd. apply NoDup_cons in Hnd as [Hne Hnd].
  inv Hx; inv Hy; try done.
  - exfalso. apply Hne. rewrite Hxy. by apply list_elem_of_fmap_2.
  - exfalso. apply Hne. rewrite <- Hxy. by apply list_elem_of_fmap_2.
  - by apply IH.
Qed.

(** Sorting by name forgets the order in which a mapping was written. *)
Lemma sort_by_name_perm (l1 l2 : list (string * string)) :
  NoDup l1.*1 -> l1 ≡ₚ l2 -> merge_sort nameLe l1 = merge_sort nameLe l2.
Proof.
  intros Hnd Hp.
  apply (Sorted_unique_strong nameLe).
  - intros x y Hx Hy Hxy Hyx.
    apply (same_name_same_entry l1); [done| | |].
    + by rewrite <- (merge_sort_Permutation nameLe).
    + rewrite Hp. by rewrite <- (merge_sort_Permutation nameLe).
    + unfold nameLe in *. rewrite Is_true_true in Hxy, Hyx.
      by apply String.leb_antisym.
  - apply Sorted_merge_sort; apply _.
  - apply Sorted_merge_sort; apply _.
  - by rewrite !merge_sort_Permutation.
Qed.

Lemma filter_names_NoDup (P : string * string -> bool) (l : list (string * string)) :
  NoDup l.*1 -> NoDup (List.filter P l).*1.
Proof.
  induction l as [|e l IH]; simpl; [done|].
  rewrite NoDup_cons. intros [Hne Hnd].
  destruct (P e); simpl; [|by apply IH].
  apply NoDup_cons. split; [|by apply IH].
  intros Hin. apply Hne.
  apply list_elem_of_fmap in Hin as (y & -> & Hy).
  apply list_elem_of_fmap_2. apply list_elem_of_In in Hy.
  apply filter_In in Hy as [Hy _]. by apply list_elem_of_In.
Qed.

Lemma filter_perm {A} (P : A -> bool) (l1 l2 : list A) :
  l1 ≡ₚ l2 -> List.filter P l1 ≡ₚ List.filter P l2.
Proof.
  induction 1 as [|x l l' _ IH|x y l|l l' l'' _ IH1 _ IH2]; simpl.
  - done.
  - destruct (P x); by rewrite IH.
  - destruct (P x), (P y); try done. apply perm_swap.
  - by rewrite IH1.
Qed.

Lemma buildKey_perm defaults kind (p1 p2 : list (string * JsValue)) :
  NoDup p1.*1 -> p1 ≡ₚ p2 ->
  buildKey defaults kind p1 = buildKey defaults kind p2.
Proof.
  intros Hnd Hp. unfold buildKey.
  rewrite (sort_by_name_perm
             (List.filter (keptParam defaults)
                ((fun p : string * JsValue => (p.1, stringify p.2)) <$> p1))
             (List.filter (keptParam defaults)
                ((fun p : string * JsValue => (p.1, stringify p.2)) <$> p2)));
    [done| |].
  - apply filter_names_NoDup.
    by rewrite <- list_fmap_compose.
  - apply filter_perm. by rewrite Hp.
Qed.

End KeyOrder.

Lemma page_one_dropped kind (q : list (string * string)) :
  generateCacheKey kind (KParams (("page", "1") :: q))
  = generateCacheKey kind (KParams q).
Proof. reflexivity. Qed.

(** C4.  Key construction is a function of the kind and of the set of
    name/value pairs only: two query mappings holding the same pairs in
    any order of insertion are given the same key, and a query that spells
    out [page=1] is given the key of the same query without [page],
    because a parameter at its default is left out of the key. *)
Theorem C4_cache_key_order_insensitive
    (kind : string) (q1 q2 qe q : list (string * string)) :
  NoDup q1.*1 -> q1 ≡ₚ q2 ->
  NoDup qe.*1 -> qe ≡ₚ ("page", "1") :: q ->
  generateCacheKey kind (KParams q1) = generateCacheKey kind (KParams q2)
  /\ generateCacheKey kind (KParams qe) = generateCacheKey kind (KParams q).
Proof.
  assert (Hkey : forall a b : list (string * string),
             NoDup a.*1 -> a ≡ₚ b ->
             generateCacheKey kind (KParams a) = generateCacheKey kind (KParams b)).
  { intros a b Hnd Hp. unfold generateCacheKey.
    apply buildKey_perm; [|by rewrite Hp].
    by rewrite <- list_fmap_compose. }
  intros Hnd1 Hp1 Hnde Hpe. split; [by apply Hkey|].
  rewrite (Hkey _ _ Hnde Hpe). apply page_one_dropped.
Qed.

Lemma C4_cache_key_order_insensitive_witness :
  generateCacheKey "all-videos" (KParams [("q", "cats"); ("limit", "5")])
  = generateCacheKey "all-videos" (KParams [("limit", "5"); ("q", "cats")])
  /\ generateCacheKey "all-videos" (KParams [("limit", "5"); ("page", "1")])
     = generateCacheKey "all-videos" (KParams [("limit", "5")]).
Proof.
  apply (C4_cache_key_order_insensitive "all-videos"
           [("q", "cats"); ("limit", "5")] [("limit", "5"); ("q", "cats")]
           [("limit", "5"); ("page", "1")] [("limit", "5")]).
  - apply (bool_decide_unpack _). vm_compute. exact I.
  - apply perm_swap.
  - apply (bool_decide_unpack _). vm_compute. exact I.
  - apply perm_swap.
Defined.

(** ** What a listing request does *)

Section Listing.
Context `{C : Collaborators}.

Lemma getAllVideos_invalid req w uid :
  lookupName "userId" (query req) = Some uid -> uid <> "" ->
  isValidObjectId uid = false ->
  getAllVideos req w = (Throw (ApiError 400 "Invalid User Id"), w).
Proof.
  intros Hu Hne Hbad. unfold getAllVideos, bind. rewrite Hu. simpl.
  apply String.eqb_neq in Hne. rewrite Hne, Hbad. reflexivity.
Qed.

Lemma getAllVideos_hit req w r :
  ownerFilterOk (query req) = true ->
  cache w !! listingKey req = Some r ->
  getAllVideos req w = (Ok (mkReply 200 r), logged w [EvCacheGet (listingKey req)]).
Proof.
  intros Hok Hhit. unfold getAllVideos, ownerFilterOk, listingKey in *.
  unfold bind at 1.
  destruct (lookupName "userId" (query req)) as [uid|] eqn:Hu; simpl.
  - destruct (String.eqb uid "") eqn:He; simpl in *.
    + unfold bind, checkCache, bind, emit, getCache, ret; simpl. by rewrite Hhit.
    + rewrite Hok. simpl.
      unfold bind, checkCache, bind, emit, getCache, ret; simpl. by rewrite Hhit.
  - unfold bind, checkCache, bind, emit, getCache, ret; simpl. by rewrite Hhit.
Qed.

Lemma getAllVideos_miss req w :
  ownerFilterOk (query req) = true ->
  cache w !! listingKey req = None ->
  listingAccepted req = true ->
  getAllVideos req w
  = (Ok (mkReply 200 (pageResponse (listingPage req w))),
     cached (logged w [EvCacheGet (listingKey req); EvDb Aggregate;
                       EvCacheSet (listingKey req)])
            (listingKey req) (pageResponse (listingPage req w))).
Proof.
  intros Hok Hmiss Hacc.
  unfold getAllVideos, ownerFilterOk, listingKey, listingPage, listingMatches,
    listingAccepted, searchQueryOf in *.
  unfold bind at 1.
  destruct (lookupName "userId" (query req)) as [uid|] eqn:Hu; simpl.
  - destruct (String.eqb uid "") eqn:He; simpl in *.
    + unfold aggregatePaginate, bind, checkCache, bind, emit, getCache, ret; simpl.
      rewrite Hmiss, Hacc.
      unfold cached, logged; simpl. by rewrite <- !app_assoc.
    + rewrite Hok. simpl.
      unfold aggregatePaginate, bind, checkCache, bind, emit, getCache, ret; simpl.
      rewrite Hmiss, Hacc.
      unfold cached, logged; simpl. by rewrite <- !app_assoc.
  - unfold aggregatePaginate, bind, checkCache, bind, emit, getCache, ret; simpl.
    rewrite Hmiss, Hacc.
    unfold cached, logged; simpl. by rewrite <- !app_assoc.
Qed.

(** A listing the store refuses: the handler throws after the one query
    and stores nothing. *)
Lemma getAllVideos_rejected req w :
  ownerFilterOk (query req) = true ->
  cache w !! listingKey req = None ->
  listingAccepted req = false ->
  getAllVideos req w
  = (Throw StoreError, logged w [EvCacheGet (listingKey req); EvDb Aggregate]).
Proof.
  intros Hok Hmiss Hacc.
  unfold getAllVideos, ownerFilterOk, listingKey, listingAccepted, searchQueryOf in *.
  unfold bind at 1.
  destruct (lookupName "userId" (query req)) as [uid|] eqn:Hu; simpl.
  - destruct (String.eqb uid "") eqn:He; simpl in *.
    + unfold aggregatePaginate, bind, checkCache, bind, emit, getCache, ret, throw; simpl.
      rewrite Hmiss, Hacc.
      unfold logged; simpl. by rewrite <- !app_assoc.
    + rewrite Hok. simpl.
      unfold aggregatePaginate, bind, checkCache, bind, emit, getCache, ret, throw; simpl.
      rewrite Hmiss, Hacc.
      unfold logged; simpl. by rewrite <- !app_assoc.
  - unfold aggregatePaginate, bind, checkCache, bind, emit, getCache, ret, throw; simpl.
    rewrite Hmiss, Hacc.
    unfold logged; simpl. by rewrite <- !app_assoc.
Qed.

End Listing.

(** ** Offset pagination *)

Section Pagination.

Lemma effectivePage_pos p : 1 <= effectivePage p.
Proof.
  unfold effectivePage. destruct p as [n|]; [|lia].
  destruct (Z.eqb_spec n 0); lia.
Qed.

Lemma effectiveLimit_pos l : 1 <= effectiveLimit l.
Proof.
  unfold effectiveLimit. destruct l as [n|]; [|lia].
  destruct (Z.ltb_spec 0 n); lia.
Qed.

Lemma effectiveLimit_given n : 1 <= n -> effectiveLimit (Some n) = n.
Proof. intros Hn. unfold effectiveLimit. destruct (Z.ltb_spec 0 n); lia. Qed.

Lemma effectivePage_given n : 1 <= n -> effectivePage (Some n) = n.
Proof. intros Hn. unfold effectivePage. destruct (Z.eqb_spec n 0); lia. Qed.

(** The last page is not followed by another: [page < pages] says that
    records remain after the current slice. *)
Lemma before_last_page p l total :
  1 <= p -> 1 <= l -> 0 <= total ->
  p < pageCount total l <-> p * l < total.
Proof.
  intros Hp Hl Ht. unfold pageCount.
  destruct (Z.eqb_spec total 0) as [->|Hne]; [nia|].
  pose proof (Z.div_mod (total + l - 1) l ltac:(lia)) as Hdm.
  pose proof (Z.mod_pos_bound (total + l - 1) l ltac:(lia)) as Hb.
  split; intros H; nia.
Qed.

Lemma pages_cover total l :
  1 <= l -> 0 <= total -> total <= pageCount total l * l.
Proof.
  intros Hl Ht. unfold pageCount.
  destruct (Z.eqb_spec total 0) as [->|Hne]; [lia|].
  pose proof (Z.div_mod (total + l - 1) l ltac:(lia)) as Hdm.
  pose proof (Z.mod_pos_bound (total + l - 1) l ltac:(lia)) as Hb.
  nia.
Qed.

(** The first [n] slices of width [L], one after the other, are the first
    [n * L] elements. *)
Lemma concat_slices {A} (L : nat) (xs : list A) (n : nat) :
  concat ((fun i => take L (drop (i * L) xs)) <$> seq 0 n) = take (n * L) xs.
Proof.
  induction n as [|n IH]; [done|].
  rewrite seq_S, fmap_app, concat_app, IH. simpl.
  rewrite app_nil_r, take_take_drop. f_equal. lia.
Qed.

Lemma pageSlice_nat {A} (i : nat) (l : Z) (xs : list A) :
  1 <= l ->
  pageSlice (Z.of_nat i + 1) l xs = take (Z.to_nat l) (drop (i * Z.to_nat l) xs).
Proof.
  intros Hl. unfold pageSlice. do 2 f_equal. nia.
Qed.

Lemma concat_pages {A} (l : Z) (xs : list A) (n : Z) :
  1 <= l -> Z.of_nat (length xs) <= n * l ->
  concat ((fun p => pageSlice p l xs) <$> seqZ 1 n) = xs.
Proof.
  intros Hl Hn. unfold seqZ. rewrite <- list_fmap_compose.
  transitivity
    (concat ((fun i => take (Z.to_nat l) (drop (i * Z.to_nat l) xs))
               <$> seq 0 (Z.to_nat n))).
  - f_equal. apply list_fmap_ext. intros _ i _. simpl. by apply pageSlice_nat.
  - rewrite concat_slices. apply take_ge. nia.
Qed.

End Pagination.

(** C7.  For a fixed set of matched-and-sorted records and every page
    request: the has-next flag holds exactly when [currentPage * limit] is
    below the total; the page shown skips [(page-1) * limit] records and
    takes [limit]; the total counts the matches before pagination; and the
    pages, taken in order from the first to the last, concatenate to the
    whole matched list, nothing repeated and nothing left out.  The limit
    and page are the ones in force: the requested ones whenever they are
    at least 1.  On a miss that the store accepts this is the page
    [getAllVideos] answers with, for the page and limit it reads from the
    query: 1 and 10 when the parameter is missing, else the number the
    runtime parses from its text. *)
Theorem C7_pagination_invariant
    (page limit : option Z) (matched : list VideoDoc) :
  let r := paginate page limit matched in
  let L := effectiveLimit limit in
  (pg_hasNextPage r = true <-> pg_page r * L < totalDocs r)
  /\ docs r = take (Z.to_nat L) (drop (Z.to_nat ((pg_page r - 1) * L)) matched)
  /\ totalDocs r = Z.of_nat (length matched)
  /\ concat ((fun p => docs (paginate (Some p) limit matched))
               <$> seqZ 1 (pg_totalPages r)) = matched
  /\ (forall n, limit = Some n -> 1 <= n -> L = n)
  /\ (forall n, page = Some n -> 1 <= n -> pg_page r = n)
  /\ (forall (C : Collaborators) req w,
        page = match lookupName "page" (query req) with
               | None => Some 1
               | Some s => parseInt s
               end ->
        limit = match lookupName "limit" (query req) with
                | None => Some 10
                | Some s => parseInt s
                end ->
        matched = listingMatches req w ->
        ownerFilterOk (query req) = true ->
        cache w !! listingKey req = None ->
        listingAccepted req = true ->
        fst (getAllVideos req w) = Ok (mkReply 200 (pageResponse r))).
Proof.
  intros r L.
  pose proof (effectivePage_pos page) as Hp.
  pose proof (effectiveLimit_pos limit) as Hl.
  repeat split.
  - simpl. rewrite Z.ltb_lt. apply before_last_page; lia.
  - simpl. rewrite Z.ltb_lt. apply before_last_page; lia.
  - simpl.
    transitivity
      (concat ((fun p => pageSlice p (effectiveLimit limit) matched)
                 <$> seqZ 1 (pageCount (Z.of_nat (length matched)) (effectiveLimit limit)))).
    + f_equal. apply list_fmap_ext. intros i p Hi.
      apply lookup_seqZ in Hi as [-> _].
      pose proof (effectivePage_given (1 + Z.of_nat i) ltac:(lia)) as He.
      unfold paginate. cbn [docs]. unfold effectivePage in He. by rewrite He.
    + apply concat_pages; [done|]. apply pages_cover; lia.
  - intros n -> Hn. by apply effectiveLimit_given.
  - intros n -> Hn. simpl. by apply effectivePage_given.
  - intros C req w -> -> -> Hok Hmiss Hacc.
    by rewrite getAllVideos_miss.
Qed.

Lemma C7_pagination_invariant_witness :
  let req := Demo.request [("page", "2"); ("limit", "1")] "" in
  fst (getAllVideos (C := Demo.collaborators) req Demo.world0)
  = Ok (mkReply 200
          (pageResponse
             (mkPage [resolveOwner true [Demo.alice] Demo.cats] 2 2 2 false true))).
Proof.
  exact (proj2 (proj2 (proj2 (proj2 (proj2 (proj2
           (C7_pagination_invariant (Some 2) (Some 1)
              (listingMatches (C := Demo.collaborators)
                 (Demo.request [("page", "2"); ("limit", "1")] "") Demo.world0)))))))
           Demo.collaborators
           (Demo.request [("page", "2"); ("limit", "1")] "") Demo.world0
           eq_refl eq_refl eq_refl eq_refl eq_refl eq_refl).
Defined.

(** ** What the item and related-videos requests do *)

Section Items.
Context `{C : Collaborators}.

Lemma getVideoById_found req w v :
  isValidObjectId (paramId req) = true -> target req w = Some v ->
  getVideoById req w
  = (Ok (mkReply 200 (videoResponse w v)),
     cached (logged w [EvCacheGet (videoKey req); EvDb (FindById (paramId req));
                       EvCacheSet (videoKey req)])
            (videoKey req) (videoResponse w v)).
Proof.
  intros Hv Ht. unfold getVideoById, target in *. run_handler.
  rewrite Hv. run_handler. rewrite Ht. run_handler.
  unfold cached, logged, videoKey. simpl. by rewrite <- !app_assoc.
Qed.

Lemma getVideoById_absent req w :
  isValidObjectId (paramId req) = true -> target req w = None ->
  getVideoById req w
  = (Throw (ApiError 404 "Video not found"),
     logged w [EvCacheGet (videoKey req); EvDb (FindById (paramId req))]).
Proof.
  intros Hv Ht. unfold getVideoById, target in *. run_handler.
  rewrite Hv. run_handler. rewrite Ht. run_handler.
  unfold logged, videoKey. simpl. by rewrite <- !app_assoc.
Qed.

Lemma getVideoById_malformed req w :
  isValidObjectId (paramId req) = false ->
  getVideoById req w = (Throw CastError, logged w [EvCacheGet (videoKey req)]).
Proof.
  intros Hv. unfold getVideoById. run_handler. by rewrite Hv.
Qed.

Lemma getRelatedVideos_invalid req w :
  isValidObjectId (paramId req) = false ->
  getRelatedVideos req w = (Throw (ApiError 400 "Invalid video Id"), w).
Proof. intros Hv. unfold getRelatedVideos. by rewrite Hv. Qed.

Lemma getRelatedVideos_absent req w :
  isValidObjectId (paramId req) = true -> target req w = None ->
  getRelatedVideos req w
  = (Throw (ApiError 404 "Video not found"), logged w [EvDb (FindById (paramId req))]).
Proof.
  intros Hv Ht. unfold getRelatedVideos, target in *. rewrite Hv. run_handler.
  rewrite Hv. run_handler. by rewrite Ht.
Qed.

Lemma getRelatedVideos_found req w subject :
  isValidObjectId (paramId req) = true -> target req w = Some subject ->
  getRelatedVideos req w
  = (Ok (mkReply 200 (relatedResponse req w subject)),
     uncached (logged w [EvDb (FindById (paramId req)); EvCacheDel (relatedKey req);
                         EvCacheGet (relatedKey req); EvDb Find])
              (relatedKey req)).
Proof.
  intros Hv Ht. unfold getRelatedVideos, target in *. rewrite Hv. run_handler.
  rewrite Hv. run_handler. rewrite Ht. run_handler.
  rewrite lookup_delete_eq. run_handler.
  unfold uncached, logged, relatedKey, relatedResponse. simpl.
  by rewrite <- !app_assoc.
Qed.

End Items.

(** ** Reads and the cache *)

Lemma getRelatedVideos_ok `{C : Collaborators} req w reply w' :
  getRelatedVideos req w = (Ok reply, w') ->
  exists subject,
    target req w = Some subject
    /\ reply = mkReply 200 (relatedResponse req w subject)
    /\ w' = uncached (logged w [EvDb (FindById (paramId req));
                                EvCacheDel (relatedKey req);
                                EvCacheGet (relatedKey req); EvDb Find])
                     (relatedKey req).
Proof.
  intros Hrun.
  destruct (isValidObjectId (paramId req)) eqn:Hv;
    [|by rewrite getRelatedVideos_invalid in Hrun].
  destruct (target req w) as [subject|] eqn:Ht;
    [|by rewrite getRelatedVideos_absent in Hrun].
  rewrite (getRelatedVideos_found _ _ subject) in Hrun by done.
  exists subject. by inv Hrun.
Qed.

(** C1 (as the code has it).  When the cache holds an entry for the key of
    a listing request, [getAllVideos] answers with the stored response
    unchanged and its only effect is the cache lookup: no record-store
    query.  Of two consecutive listing calls with the same parameters and
    nothing in between, when the first one answers, the second one gives
    the same answer and queries the record store not at all: its only
    effect is the cache lookup.  When the store refuses the query of the
    first call, that call throws and stores nothing, and the second call
    queries the store again.  The related-videos request is different by
    construction: it looks its subject up in the record store, evicts its
    own key, and always answers with what it computes from the store. *)
Theorem C1_listing_served_from_cache `{C : Collaborators} (req : Request) (w : World) :
  (forall r,
      ownerFilterOk (query req) = true ->
      cache w !! listingKey req = Some r ->
      getAllVideos req w
      = (Ok (mkReply 200 r), logged w [EvCacheGet (listingKey req)]))
  /\ (let first := getAllVideos req w in
      let second := getAllVideos req (snd first) in
      (forall reply,
          fst first = Ok reply ->
          fst second = Ok reply
          /\ trace (snd second) = trace (snd first) ++ [EvCacheGet (listingKey req)])
      /\ (ownerFilterOk (query req) = true ->
          cache w !! listingKey req = None ->
          listingAccepted req = false ->
          fst first = Throw StoreError
          /\ fst second = Throw StoreError
          /\ trace (snd second)
             = trace (snd first) ++ [EvCacheGet (listingKey req); EvDb Aggregate]))
  /\ (forall reply w',
      getRelatedVideos req w = (Ok reply, w') ->
      exists subject,
        target req w = Some subject
        /\ reply = mkReply 200 (relatedResponse req w subject)
        /\ trace w' = trace w ++ [EvDb (FindById (paramId req));
                                  EvCacheDel (relatedKey req);
                                  EvCacheGet (relatedKey req); EvDb Find]).
Proof.
  split; [|split].
  - intros r Hok Hhit. by apply getAllVideos_hit.
  - simpl. split.
    + intros reply. destruct (ownerFilterOk (query req)) eqn:Hok.
      * destruct (cache w !! listingKey req) as [r|] eqn:Hc.
        -- rewrite (getAllVideos_hit req w r) by done. simpl.
           rewrite (getAllVideos_hit req _ r) by done. done.
        -- destruct (listingAccepted req) eqn:Hacc.
           ++ rewrite (getAllVideos_miss req w) by done. simpl.
              rewrite (getAllVideos_hit req _ (pageResponse (listingPage req w)));
                [|done|by simpl; rewrite lookup_insert_eq].
              done.
           ++ by rewrite (getAllVideos_rejected req w).
      * unfold ownerFilterOk in Hok.
        destruct (lookupName "userId" (query req)) as [uid|] eqn:Hu; [|done].
        apply orb_false_iff in Hok as [Hne Hbad].
        apply String.eqb_neq in Hne.
        by rewrite (getAllVideos_invalid req _ uid).
    + intros Hok Hmiss Hacc.
      rewrite (getAllVideos_rejected req w) by done. simpl.
      by rewrite (getAllVideos_rejected req _).
  - intros reply w' Hrun.
    apply getRelatedVideos_ok in Hrun as (subject & Ht & -> & ->).
    by exists subject.
Qed.

(** C1, the claim as stated, fails for the related-videos request: with
    an entry stored under its key, the request still queries the record
    store twice and answers with the freshly computed list, not with the
    stored response. *)
Lemma C1_related_videos_bypass_cache :
  let req := Demo.request [] "000000000000000000000001" in
  let stale := mkResponse 200 (DataDocs []) (Some "Related videos found") in
  let w := mkWorld [Demo.cats; Demo.dogs; Demo.draft] [Demo.alice]
                   {[ "related-videos:000000000000000000000001" := stale ]} [] in
  let fresh :=
    mkResponse 200 (DataDocs [resolveOwner false [Demo.alice] Demo.draft])
               (Some "Related videos found") in
  cache w !! relatedKey req = Some stale
  /\ fst (getRelatedVideos (C := Demo.collaborators) req w) = Ok (mkReply 200 fresh)
  /\ fresh <> stale
  /\ List.filter isDb (trace (snd (getRelatedVideos (C := Demo.collaborators) req w)))
     = [EvDb (FindById "000000000000000000000001"); EvDb Find].
Proof.
  repeat split; try (vm_compute; reflexivity).
  intros Heq. inversion Heq.
Qed.

(** C3 (as the code has it).  On a miss the listing request whose query
    the store accepts and the single-item request store the response they
    computed under their key before they answer, so the entry goes from
    absent to populated.  A listing whose query the store refuses computes
    nothing: it throws and its key stays absent.  The related-videos
    request stores nothing: after it answered, its key is absent from the
    cache. *)
Theorem C3_miss_populates_cache `{C : Collaborators} (req : Request) (w : World) :
  (ownerFilterOk (query req) = true ->
   cache w !! listingKey req = None ->
   if listingAccepted req then
     exists reply w',
       getAllVideos req w = (Ok reply, w')
       /\ replyBody reply = pageResponse (listingPage req w)
       /\ cache w' !! listingKey req = Some (replyBody reply)
       /\ trace w' = trace w ++ [EvCacheGet (listingKey req); EvDb Aggregate;
                                 EvCacheSet (listingKey req)]
   else
     exists w',
       getAllVideos req w = (Throw StoreError, w')
       /\ cache w' !! listingKey req = None)
  /\ (forall v,
      isValidObjectId (paramId req) = true ->
      target req w = Some v ->
      cache w !! videoKey req = None ->
      exists reply w',
        getVideoById req w = (Ok reply, w')
        /\ replyBody reply = videoResponse w v
        /\ cache w' !! videoKey req = Some (replyBody reply)
        /\ trace w' = trace w ++ [EvCacheGet (videoKey req);
                                  EvDb (FindById (paramId req));
                                  EvCacheSet (videoKey req)])
  /\ (forall reply w',
      getRelatedVideos req w = (Ok reply, w') ->
      cache w' !! relatedKey req = None
      /\ forall e, e ∈ drop (length (trace w)) (trace w') -> e <> EvCacheSet (relatedKey req)).
Proof.
  split; [|split].
  - intros Hok Hmiss. destruct (listingAccepted req) eqn:Hacc.
    + eexists _, _. split; [by apply getAllVideos_miss|].
      simpl. by rewrite lookup_insert_eq.
    + eexists. split; [by apply getAllVideos_rejected|done].
  - intros v Hv Ht _. eexists _, _. split; [by apply getVideoById_found|].
    simpl. by rewrite lookup_insert_eq.
  - intros reply w' Hrun.
    apply getRelatedVideos_ok in Hrun as (subject & Ht & -> & ->). simpl.
    split; [apply lookup_delete_eq|].
    rewrite drop_app_length. intros e He ->.
    repeat (apply elem_of_cons in He as [He|He]; [done|]).
    by apply elem_of_nil in He.
Qed.

(** C3, the claim as stated, fails for the related-videos request: on a
    miss it computes its answer and leaves the cache without an entry. *)
Lemma C3_related_videos_not_stored :
  let req := Demo.request [] "000000000000000000000001" in
  let out := getRelatedVideos (C := Demo.collaborators) req Demo.world0 in
  cache Demo.world0 !! relatedKey req = None
  /\ fst out
     = Ok (mkReply 200
             (mkResponse 200 (DataDocs [resolveOwner false [Demo.alice] Demo.draft])
                         (Some "Related videos found")))
  /\ cache (snd out) !! relatedKey req = None.
Proof. repeat split; vm_compute; reflexivity. Qed.

(** ** Mutations write first and invalidate afterwards *)

Section Invalidation.

Lemma group_gone (tag : string) (c : gmap string ApiResponse) (k : string) :
  String.prefix tag k = true ->
  filter (fun kv : string * ApiResponse => String.prefix tag kv.1 = false) c !! k = None.
Proof.
  intros Hp. apply map_lookup_filter_None. right. intros x _. simpl. congruence.
Qed.

Lemma group_keeps_absent (tag : string) (c : gmap string ApiResponse) (k : string) :
  c !! k = None ->
  filter (fun kv : string * ApiResponse => String.prefix tag kv.1 = false) c !! k = None.
Proof. intros Hk. apply map_lookup_filter_None. by left. Qed.

End Invalidation.

(** C2.  Every mutation that succeeds (publish, update by id, update of
    all, delete, publish-status change) has performed exactly one write
    against the record store, before which it touched neither the cache
    nor the store, and only after that write its invalidations: the
    single-entity key when the mutation targets an identifier, then the
    ["all-videos"] group.  When it returns, the record store holds what
    the mutation writes ([written]), no key of the group is left in the
    cache, nor the single-entity key of a targeted record. *)
Theorem C2_write_then_invalidate `{C : Collaborators}
    (m : Mutation) (req : Request) (w w' : World) (reply : Reply) :
  runMutation m req w = (Ok reply, w') ->
  (exists pre op,
      trace w' = trace w ++ pre ++ [EvDb op] ++ invalidations m req
      /\ isDbWrite (EvDb op) = true
      /\ forallb quiet pre = true)
  /\ written m req (videos w) (videos w')
  /\ (forall k, String.prefix "all-videos" k = true -> cache w' !! k = None)
  /\ (idTargeted m = true -> cache w' !! videoKey req = None).
Proof.
  intros Hrun. destruct m; simpl in Hrun.
  - unfold publishVideo in Hrun. run_in Hrun. branch_in Hrun.
    all: inv Hrun; simpl; (split; [|split; [|split]]);
      [ eexists [_; _], _; rewrite <- !app_assoc; simpl; by repeat split
      | match goal with
        | Hv : uploadOnCloudinary (videoFilePath _) = Some ?vf,
          Hvp : up_public_id ?vf = Some ?vpid,
          Ht : uploadOnCloudinary (thumbnailFilePath _) = Some ?th,
          Htp : up_public_id ?th = Some ?tpid,
          Hd : schemaDefaults _ = _,
          Hg : bodyTags _ = _ |- _ =>
            exists vf, vpid, th, tpid; rewrite Hvp, Htp, Hd, Hg
        end;
        repeat match goal with H : Js.truthy _ = true |- _ => rewrite H; clear H end;
        done
      | intros k Hk; by apply group_gone
      | done ].
  - unfold updateVideoById in Hrun. run_in Hrun. branch_in Hrun.
    all: inv Hrun; simpl; (split; [|split; [|split]]);
      [ eexists [_], _; rewrite <- !app_assoc; simpl; by repeat split
      | match goal with
        | Hu : uploadOnCloudinary (filePath _) = Some ?up,
          Hp : up_public_id ?up = Some ?pid,
          Hf : List.find _ _ = Some _ |- _ =>
            exists up, pid; rewrite Hp, Hf
        end;
        repeat match goal with H : Js.truthy _ = true |- _ => rewrite H; clear H end;
        done
      | intros k Hk; by apply group_gone
      | intros _; apply group_keeps_absent, lookup_delete_eq ].
  - unfold updateAllVideo in Hrun. run_in Hrun. branch_in Hrun.
    all: inv Hrun; simpl; (split; [|split; [|split]]);
      [ eexists [], _; rewrite <- !app_assoc; simpl; by repeat split
      | match goal with Hg : bodyTags _ = _ |- _ => by rewrite Hg end
      | intros k Hk; by apply group_gone
      | done ].
  - unfold deleteVideo in Hrun. run_in Hrun. branch_in Hrun.
    all: inv Hrun; simpl; (split; [|split; [|split]]);
      [ eexists [], _; rewrite <- !app_assoc; simpl; by repeat split
      | match goal with Hf : List.find _ _ = Some _ |- _ => by rewrite Hf end
      | intros k Hk; by apply group_gone
      | intros _; apply group_keeps_absent, lookup_delete_eq ].
  - unfold updateVideoPublishStatus in Hrun. run_in Hrun. branch_in Hrun.
    all: inv Hrun; simpl; (split; [|split; [|split]]);
      [ eexists [], _; rewrite <- !app_assoc; simpl; by repeat split
      | match goal with Hf : List.find _ _ = Some _ |- _ => by rewrite Hf end
      | intros k Hk; by apply group_gone
      | intros _; apply group_keeps_absent, lookup_delete_eq ].
Qed.

Lemma C2_write_then_invalidate_witness :
  let req :=
    mkRequest [] "000000000000000000000001" None None None (Some false)
              None None None "0000000000000000000000a1" in
  let stale := mkResponse 200 DataEmpty None in
  let w := mkWorld [Demo.cats; Demo.dogs] [Demo.alice]
                   {[ "all-videos:q=cats" := stale;
                      "video:000000000000000000000001" := stale ]} [] in
  let w' := snd (updateVideoPublishStatus (C := Demo.collaborators) req w) in
  (exists pre op,
      trace w' = trace w ++ pre ++ [EvDb op] ++ invalidations MPublishStatus req
      /\ isDbWrite (EvDb op) = true
      /\ forallb quiet pre = true)
  /\ written (C := Demo.collaborators) MPublishStatus req (videos w) (videos w')
  /\ (forall k, String.prefix "all-videos" k = true -> cache w' !! k = None)
  /\ (idTargeted MPublishStatus = true -> cache w' !! videoKey req = None).
Proof.
  intros req stale w w'.
  apply (C2_write_then_invalidate (C := Demo.collaborators) MPublishStatus req w w'
           (mkReply 200
              (mkResponse 200
                 (DataVideo
                    (Demo.video "000000000000000000000001" "Cats playing"
                                "Two kittens" ["cats"] false 10))
                 (Some "Video publish status updated")))).
  vm_compute. reflexivity.
Defined.

(** ** The owner filter *)

Section OwnerFilter.
Context `{C : Collaborators}.

Lemma matchesSearch_owner sq v o :
  sqOwner sq = Some o -> matchesSearch sq v = true -> owner v = o.
Proof.
  intros Ho Hm. unfold matchesSearch in Hm. rewrite Ho in Hm.
  apply andb_true_iff in Hm as [_ Hm]. by apply String.eqb_eq.
Qed.

(** Every record of a page is a stored record that passed the filter,
    with its owner resolved. *)
Lemma listingPage_docs req w d :
  d ∈ docs (listingPage req w) ->
  exists v, v ∈ videos w
            /\ matchesSearch (searchQueryOf (query req)) v = true
            /\ d = resolveOwner true (users w) v.
Proof.
  unfold listingPage, paginate, pageSlice, listingMatches, runPipeline. cbn [docs].
  intros Hd. apply subseteq_take, subseteq_drop in Hd.
  apply list_elem_of_fmap in Hd as (v & -> & Hv).
  rewrite sortStage_perm in Hv.
  apply list_elem_of_In, filter_In in Hv as [Hv Hm].
  exists v. by rewrite list_elem_of_In.
Qed.

End OwnerFilter.

(** C6 (as the code has it).  A listing request whose [userId] parameter
    is a non-empty text that is not a well-formed identifier fails with
    the 400 "Invalid User Id" error, and the world is left exactly as it
    was: neither a cache lookup nor a record-store query has happened.
    With a well-formed identifier the filter admits only records whose
    owner reference is that identifier, so every record of a computed page
    belongs to that owner.  A [userId] that is present and empty is not
    checked at all: the request is filtered by no owner and answered. *)
Theorem C6_owner_filter `{C : Collaborators} (req : Request) (w : World) (uid : string) :
  lookupName "userId" (query req) = Some uid ->
  (uid <> "" -> isValidObjectId uid = false ->
     getAllVideos req w = (Throw (ApiError 400 "Invalid User Id"), w))
  /\ (uid <> "" -> isValidObjectId uid = true ->
      (forall v, matchesSearch (searchQueryOf (query req)) v = true ->
                 owner v = castObjectId uid)
      /\ (cache w !! listingKey req = None ->
          listingAccepted req = true ->
          exists reply w',
            getAllVideos req w = (Ok reply, w')
            /\ replyBody reply = pageResponse (listingPage req w)
            /\ forall d, d ∈ docs (listingPage req w) ->
                 exists v, v ∈ videos w
                           /\ owner v = castObjectId uid
                           /\ d = resolveOwner true (users w) v))
  /\ (uid = "" ->
      sqOwner (searchQueryOf (query req)) = None
      /\ (cache w !! listingKey req = None ->
          listingAccepted req = true ->
          fst (getAllVideos req w) = Ok (mkReply 200 (pageResponse (listingPage req w))))).
Proof.
  intros Hu. split; [|split].
  - intros Hne Hbad. by apply (getAllVideos_invalid req w uid).
  - intros Hne Hvalid.
    assert (Hsq : sqOwner (searchQueryOf (query req)) = Some (castObjectId uid)).
    { unfold searchQueryOf. rewrite Hu. simpl.
      apply String.eqb_neq in Hne. by rewrite Hne. }
    split.
    + intros v. by apply matchesSearch_owner.
    + intros Hmiss Hacc.
      assert (Hok : ownerFilterOk (query req) = true).
      { unfold ownerFilterOk. rewrite Hu, Hvalid. apply orb_true_r. }
      eexists _, _. split; [by apply getAllVideos_miss|]. split; [done|].
      intros d Hd. apply listingPage_docs in Hd as (v & Hv & Hm & ->).
      exists v. split; [done|]. split; [|done].
      by apply (matchesSearch_owner (searchQueryOf (query req))).
  - intros ->. split.
    + unfold searchQueryOf. by rewrite Hu.
    + intros Hmiss Hacc.
      assert (Hok : ownerFilterOk (query req) = true).
      { unfold ownerFilterOk. by rewrite Hu. }
      by rewrite getAllVideos_miss.
Qed.

Lemma C6_owner_filter_witness :
  getAllVideos (C := Demo.collaborators)
    (Demo.request [("userId", "not-an-id")] "") Demo.world0
  = (Throw (ApiError 400 "Invalid User Id"), Demo.world0)
  /\ (let req := Demo.request [("userId", "0000000000000000000000A1")] "" in
      exists reply w',
        getAllVideos (C := Demo.collaborators) req Demo.world0 = (Ok reply, w')
        /\ replyBody reply
           = pageResponse (listingPage (C := Demo.collaborators) req Demo.world0)
        /\ forall d,
             d ∈ docs (listingPage (C := Demo.collaborators) req Demo.world0) ->
             exists v, v ∈ videos Demo.world0
                       /\ owner v = "0000000000000000000000a1"
                       /\ d = resolveOwner true (users Demo.world0) v).
Proof.
  split.
  - apply (proj1 (C6_owner_filter (C := Demo.collaborators)
                    (Demo.request [("userId", "not-an-id")] "") Demo.world0
                    "not-an-id" eq_refl));
      [discriminate | vm_compute; reflexivity].
  - apply (proj2 (proj1 (proj2 (C6_owner_filter (C := Demo.collaborators)
                    (Demo.request [("userId", "0000000000000000000000A1")] "")
                    Demo.world0 "0000000000000000000000A1" eq_refl))
                    ltac:(discriminate) eq_refl) eq_refl eq_refl).
Defined.

(** C6, the claim as stated, fails for an owner filter that is present
    and empty: the empty text is not a well-formed identifier, yet the
    request is answered, with the records of every owner. *)
Lemma C6_empty_owner_filter_is_ignored :
  let req := Demo.request [("userId", "")] "" in
  lookupName "userId" (query req) = Some ""
  /\ isValidObjectId (Collaborators := Demo.collaborators) "" = false
  /\ fst (getAllVideos (C := Demo.collaborators) req Demo.world0)
     = Ok (mkReply 200 (mkResponse 200
            (DataPage [resolveOwner true [Demo.alice] Demo.dogs;
                       resolveOwner true [Demo.alice] Demo.cats] 2 1 1 false false)
            (Some "Videos found"))).
Proof. repeat split; vm_compute; reflexivity. Qed.

(** ** The listing filter *)

Section Filter.
Context `{C : Collaborators}.

Lemma lowerAscii_space c : Ascii.eqb (Js.lowerAscii c) " "%char = Ascii.eqb c " "%char.
Proof. destruct c as [[] [] [] [] [] [] [] []]; reflexivity. Qed.

Lemma lowerAscii_idem c : Js.lowerAscii (Js.lowerAscii c) = Js.lowerAscii c.
Proof. destruct c as [[] [] [] [] [] [] [] []]; reflexivity. Qed.

Lemma asciiLower_idem s : Js.asciiLower (Js.asciiLower s) = Js.asciiLower s.
Proof. induction s as [|c s IH]; simpl; [done|]. by rewrite lowerAscii_idem, IH. Qed.

(** Lower-casing the pieces of a query is splitting the lower-cased query. *)
Lemma split_space_lower q :
  Js.asciiLower <$> Js.split_space q = Js.split_space (Js.asciiLower q).
Proof.
  induction q as [|c q IH]; [done|].
  cbn [Js.split_space Js.asciiLower].
  rewrite lowerAscii_space, <- IH. destruct (Ascii.eqb c " "%char).
  - by rewrite fmap_cons.
  - by destruct (Js.split_space q).
Qed.

Lemma lowerAscii_ascii c :
  (nat_of_ascii (Js.lowerAscii c) <? 128)%nat = (nat_of_ascii c <? 128)%nat.
Proof. destruct c as [[] [] [] [] [] [] [] []]; reflexivity. Qed.

Lemma lowerAscii_meta c : isMeta (Js.lowerAscii c) = isMeta c.
Proof. destruct c as [[] [] [] [] [] [] [] []]; reflexivity. Qed.

Lemma isAscii_lower s : Js.isAscii (Js.asciiLower s) = Js.isAscii s.
Proof. induction s as [|c s IH]; simpl; [done|]. by rewrite lowerAscii_ascii, IH. Qed.

Lemma isLiteral_lower s : isLiteral (Js.asciiLower s) = isLiteral s.
Proof.
  unfold isLiteral. induction s as [|c s IH]; simpl; [done|].
  by rewrite lowerAscii_meta, IH.
Qed.

(** The pieces of an ASCII text are ASCII. *)
Lemma split_space_ascii q :
  Js.isAscii q = true -> Forall (fun p => Js.isAscii p = true) (Js.split_space q).
Proof.
  induction q as [|c q IH]; simpl; intros Hq.
  - by repeat constructor.
  - apply andb_true_iff in Hq as [Hc Hq]. specialize (IH Hq).
    destruct (Ascii.eqb c " "%char); [by constructor|].
    destruct (Js.split_space q) as [|p ps]; [by repeat constructor; simpl; rewrite Hc|].
    inv IH. constructor; [|done]. simpl. by rewrite Hc.
Qed.

(** On an ASCII query the candidates for the tags are the pieces of the
    lower-cased query. *)
Lemma pieces_lower q :
  LowerAsciiLaw -> Js.isAscii q = true ->
  toLowerCase <$> Js.split_space q = Js.split_space (Js.asciiLower q).
Proof.
  intros Hlow Hq. rewrite <- split_space_lower.
  apply Forall_fmap_ext_1. eapply Forall_impl; [by apply split_space_ascii|].
  intros p Hp. by apply Hlow.
Qed.

(** [split(" ")] is undone by joining with a space. *)
Lemma joinSpace_split q : joinSpace (Js.split_space q) = q.
Proof.
  induction q as [|c q IH]; [done|]. cbn [Js.split_space].
  destruct (Ascii.eqb_spec c " "%char) as [->|Hc].
  - destruct (Js.split_space q) as [|p ps] eqn:Hs; [by destruct q; simpl in Hs; [|destruct (Ascii.eqb _ _), (Js.split_space q)] |].
    cbn [joinSpace]. simpl. by rewrite <- IH.
  - destruct (Js.split_space q) as [|p ps] eqn:Hs.
    + simpl in *. by rewrite <- IH.
    + rewrite <- IH. by destruct ps.
Qed.

Lemma includes_space_cons c p :
  c <> " "%char -> Js.includes " " (String c p) = Js.includes " " p.
Proof.
  intros Hc. cbn [Js.includes String.prefix].
  by destruct (Ascii.ascii_dec " " c) as [<-|_].
Qed.

(** No piece holds a space. *)
Lemma split_space_pieces q p :
  p ∈ Js.split_space q -> Js.includes " " p = false.
Proof.
  revert p. induction q as [|c q IH]; intros p; cbn [Js.split_space].
  - intros ->%list_elem_of_singleton. reflexivity.
  - destruct (Ascii.eqb_spec c " "%char) as [->|Hc].
    + intros [->|Hp]%elem_of_cons; [reflexivity|by apply IH].
    + destruct (Js.split_space q) as [|p0 ps].
      * intros ->%list_elem_of_singleton. by rewrite includes_space_cons.
      * intros [->|Hp]%elem_of_cons.
        -- rewrite includes_space_cons by done. apply IH. by left.
        -- apply IH. by right.
Qed.

Lemma tagsIn_spec candidates v :
  tagsIn candidates v = true <-> exists t, t ∈ tags v /\ t ∈ candidates.
Proof.
  unfold tagsIn. rewrite existsb_exists. split.
  - intros (t & Ht & Hc). apply existsb_exists in Hc as (t' & Ht' & He).
    apply String.eqb_eq in He as <-. exists t. by rewrite !list_elem_of_In.
  - intros (t & Ht & Hc). exists t. rewrite <- list_elem_of_In. split; [done|].
    apply existsb_exists. exists t. rewrite <- list_elem_of_In.
    by rewrite String.eqb_refl.
Qed.

Lemma matchesText_spec q v :
  matchesText q v = true
  <-> regexSearchI q (title v) = true
      \/ regexSearchI q (description v) = true
      \/ exists t, t ∈ tags v /\ t ∈ toLowerCase <$> Js.split_space q.
Proof.
  unfold matchesText. rewrite !orb_true_iff, tagsIn_spec. tauto.
Qed.

Lemma matchesSearch_spec sq v :
  matchesSearch sq v = true
  <-> isPublished v = true
      /\ (forall q, sqText sq = Some q -> matchesText q v = true)
      /\ (forall o, sqOwner sq = Some o -> owner v = o).
Proof.
  unfold matchesSearch. rewrite !andb_true_iff. split.
  - intros [[Hp Ht] Ho]. split; [done|]. split.
    + intros q Hq. by rewrite Hq in Ht.
    + intros o Hso. rewrite Hso in Ho. by apply String.eqb_eq.
  - intros (Hp & Ht & Ho). split; [split; [done|]|].
    + destruct (sqText sq); [by apply Ht|done].
    + destruct (sqOwner sq) as [o|]; [|done].
      apply String.eqb_eq. by apply Ho.
Qed.

(** Under the two laws the text match on ASCII text is containment of
    the lower-cased query, or a tag among its pieces. *)
Lemma matchesText_literal q v :
  RegexLiteralLaw -> LowerAsciiLaw ->
  isLiteral q = true -> Js.isAscii q = true ->
  Js.isAscii (title v) = true -> Js.isAscii (description v) = true ->
  matchesText q v
  = Js.includes (Js.asciiLower q) (Js.asciiLower (title v))
    || Js.includes (Js.asciiLower q) (Js.asciiLower (description v))
    || tagsIn (Js.split_space (Js.asciiLower q)) v.
Proof.
  intros Hlaw Hlow Hq Ha Ht Hd. unfold matchesText.
  by rewrite !Hlaw, pieces_lower.
Qed.

(** Hence it depends on the query, the title and the description only
    through their lower-case forms. *)
Lemma matchesText_caseless q q' (v v' : Video) :
  RegexLiteralLaw -> LowerAsciiLaw ->
  isLiteral q = true -> Js.isAscii q = true ->
  Js.isAscii (title v) = true -> Js.isAscii (description v) = true ->
  Js.asciiLower q' = Js.asciiLower q ->
  Js.asciiLower (title v') = Js.asciiLower (title v) ->
  Js.asciiLower (description v') = Js.asciiLower (description v) ->
  tags v' = tags v ->
  matchesText q' v' = matchesText q v.
Proof.
  intros Hlaw Hlow Hq Ha Ht Hd Hl Hlt Hld Htags.
  rewrite (matchesText_literal q v) by done.
  rewrite (matchesText_literal q' v').
  - unfold tagsIn. by rewrite Hl, Hlt, Hld, Htags.
  - done.
  - done.
  - by rewrite <- isLiteral_lower, Hl, isLiteral_lower.
  - by rewrite <- isAscii_lower, Hl, isAscii_lower.
  - by rewrite <- isAscii_lower, Hlt, isAscii_lower.
  - by rewrite <- isAscii_lower, Hld, isAscii_lower.
Qed.

End Filter.

(** C5 (as the code has it).  The listing filter admits exactly the
    records that are published and, when a free-text query [q] is present
    (a non-empty [q] parameter), whose title or description the store's
    case-insensitive pattern search finds [q] in, read as a regular
    expression, or one of whose tags is a lower-cased piece of [q] (and,
    with an owner filter, whose owner is that one).  The pieces are the
    parts of [q] between single spaces: none holds a space, and joined
    with spaces they give [q] back.  On ASCII text, for a query without
    regular-expression operators, the pattern search is case-insensitive
    containment, and then the match does not depend on the casing of the
    query nor on that of the stored title and description: ["CATS"]
    matches what ["cats"] matches. *)
Theorem C5_listing_filter `{C : Collaborators} (sq : SearchQuery) (v : Video) :
  (matchesSearch sq v = true
   <-> isPublished v = true
       /\ (forall q, sqText sq = Some q ->
             regexSearchI q (title v) = true
             \/ regexSearchI q (description v) = true
             \/ exists t, t ∈ tags v /\ t ∈ toLowerCase <$> Js.split_space q)
       /\ (forall o, sqOwner sq = Some o -> owner v = o))
  /\ (forall qs q, lookupName "q" qs = Some q -> q <> "" ->
        sqText (searchQueryOf qs) = Some q)
  /\ (forall qs, lookupName "q" qs = None \/ lookupName "q" qs = Some "" ->
        sqText (searchQueryOf qs) = None)
  /\ (forall q,
        joinSpace (Js.split_space q) = q
        /\ forall p, p ∈ Js.split_space q -> Js.includes " " p = false)
  /\ (RegexLiteralLaw -> LowerAsciiLaw ->
      forall q, sqText sq = Some q -> isLiteral q = true -> Js.isAscii q = true ->
        Js.isAscii (title v) = true -> Js.isAscii (description v) = true ->
        (matchesSearch sq v = true
         <-> isPublished v = true
             /\ (Js.includes (Js.asciiLower q) (Js.asciiLower (title v)) = true
                 \/ Js.includes (Js.asciiLower q) (Js.asciiLower (description v)) = true
                 \/ exists t, t ∈ tags v /\ t ∈ Js.split_space (Js.asciiLower q))
             /\ (forall o, sqOwner sq = Some o -> owner v = o)))
  /\ (RegexLiteralLaw -> LowerAsciiLaw ->
      forall q q' (v' : Video),
        isLiteral q = true -> Js.isAscii q = true ->
        Js.isAscii (title v) = true -> Js.isAscii (description v) = true ->
        Js.asciiLower q' = Js.asciiLower q ->
        Js.asciiLower (title v') = Js.asciiLower (title v) ->
        Js.asciiLower (description v') = Js.asciiLower (description v) ->
        tags v' = tags v ->
        matchesText q' v' = matchesText q v).
Proof.
  split; [|split; [|split; [|split; [|split]]]].
  - rewrite matchesSearch_spec. split.
    + intros (Hp & Ht & Ho). split; [done|]. split; [|done].
      intros q Hq. by apply matchesText_spec, Ht.
    + intros (Hp & Ht & Ho). split; [done|]. split; [|done].
      intros q Hq. by apply matchesText_spec, Ht.
  - intros qs q Hq Hne. unfold searchQueryOf. rewrite Hq. simpl.
    apply String.eqb_neq in Hne. by rewrite Hne.
  - intros qs [Hq|Hq]; unfold searchQueryOf; by rewrite Hq.
  - intros q. split; [apply joinSpace_split|apply split_space_pieces].
  - intros Hlaw Hlow q Hq Hlit Ha Hta Hda. rewrite matchesSearch_spec.
    split.
    + intros (Hp & Ht & Ho). split; [done|]. split; [|done].
      specialize (Ht q Hq). apply matchesText_spec in Ht.
      rewrite !Hlaw, pieces_lower in Ht by done. done.
    + intros (Hp & Ht & Ho). split; [done|]. split; [|done].
      intros q0 Hq0. rewrite Hq in Hq0. injection Hq0 as <-.
      apply matchesText_spec. by rewrite !Hlaw, pieces_lower.
  - intros Hlaw Hlow q q' v'. by apply matchesText_caseless.
Qed.

Lemma demo_literal_law : RegexLiteralLaw (C := Demo.collaborators).
Proof. intros q s _ _ _. reflexivity. Qed.

Lemma demo_lower_law : LowerAsciiLaw (C := Demo.collaborators).
Proof. intros s _. reflexivity. Qed.

Lemma C5_listing_filter_witness :
  matchesText (C := Demo.collaborators) "CATS"
    (Demo.video "000000000000000000000001" "CATS PLAYING" "two KITTENS" ["cats"] true 10)
  = matchesText (C := Demo.collaborators) "cats" Demo.cats
  /\ matchesSearch (C := Demo.collaborators) (mkSearch (Some "Big CATS") None) Demo.cats
     = true.
Proof.
  split.
  - apply (proj2 (proj2 (proj2 (proj2 (proj2
             (C5_listing_filter (C := Demo.collaborators)
                (mkSearch (Some "cats") None) Demo.cats)))))
             demo_literal_law demo_lower_law "cats" "CATS");
      vm_compute; reflexivity.
  - apply (proj1 (proj2 (proj2 (proj2 (proj2
             (C5_listing_filter (C := Demo.collaborators)
                (mkSearch (Some "Big CATS") None) Demo.cats)))))
             demo_literal_law demo_lower_law "Big CATS"
             eq_refl eq_refl eq_refl eq_refl eq_refl).
    split; [reflexivity|]. split; [|discriminate].
    right. right. exists "cats". split; [by left|].
    change (Js.split_space (Js.asciiLower "Big CATS")) with ["big"; "cats"].
    right. by left.
Defined.

Lemma prefix_app_l a b s :
  String.prefix (a +:+ b) s = true -> String.prefix a s = true.
Proof.
  revert s. induction a as [|x a IH]; intros s; [by destruct s|].
  destruct s as [|y s]; simpl; [done|].
  destruct (Ascii.ascii_dec x y); [apply IH|done].
Qed.

Lemma includes_app_l a b s :
  Js.includes (a +:+ b) s = true -> Js.includes a s = true.
Proof.
  induction s as [|c s IH]; cbn [Js.includes]; rewrite !orb_true_iff.
  - intros [H|H]; [left; by apply (prefix_app_l a b)|done].
  - intros [H|H]; [left; by apply (prefix_app_l a b)|right; by apply IH].
Qed.

(** A query whose words are separated by a TAB is one piece for the
    code, whatever the engine does on other patterns: no tag equal to one
    of its words makes a record match. *)
Lemma tab_query_is_one_piece `{C : Collaborators} (v : Video) :
  RegexLiteralLaw -> LowerAsciiLaw ->
  Js.isAscii (title v) = true -> Js.isAscii (description v) = true ->
  Js.includes "cats" (Js.asciiLower (title v)) = false ->
  Js.includes "cats" (Js.asciiLower (description v)) = false ->
  tags v = ["dogs"] ->
  matchesSearch (mkSearch (Some ("cats" +:+ String "009"%char "dogs")) None) v = false.
Proof.
  intros Hlaw Hlow Hta Hda Ht Hd Htags.
  assert (Hin : forall s, Js.includes "cats" s = false ->
                 Js.includes ("cats" +:+ String "009"%char "dogs") s = false).
  { intros s Hs. apply not_true_is_false. intros Habs.
    apply includes_app_l in Habs. congruence. }
  unfold matchesSearch. cbn [sqText sqOwner].
  rewrite matchesText_literal by (done || vm_compute; reflexivity).
  change (Js.asciiLower ("cats" +:+ String "009"%char "dogs"))
    with ("cats" +:+ String "009"%char "dogs").
  rewrite (Hin _ Ht), (Hin _ Hd). unfold tagsIn. rewrite Htags.
  by destruct (isPublished v).
Qed.

(** C5, the claim as stated, fails on a query whose words are separated
    by a TAB: split at white space it has the token ["dogs"], which is a
    tag of the record, so the claim admits the record; the code splits at
    single spaces only, gets one piece, and rejects the record. *)
Lemma C5_tab_separated_query :
  let q := "cats" +:+ String "009"%char "dogs" in
  isLiteral q = true
  /\ Js.isAscii q = true
  /\ Js.asciiLower <$> split_whitespace q = ["cats"; "dogs"]
  /\ toLowerCase (Collaborators := Demo.collaborators) <$> Js.split_space q = [q]
  /\ claimedAdmits (Some q) Demo.dogs = true
  /\ matchesSearch (C := Demo.collaborators) (mkSearch (Some q) None) Demo.dogs = false.
Proof. repeat split; vm_compute; reflexivity. Qed.

(** ** Requests for a record that does not exist *)

Section Absent.
Context `{C : Collaborators}.

Lemma deleteVideo_absent req w :
  target req w = None ->
  deleteVideo req w
  = if isValidObjectId (paramId req)
    then (Throw (ApiError 500 "Failed to delete video"),
          logged w [EvDb (FindByIdAndDelete (paramId req))])
    else (Throw CastError, w).
Proof.
  intros Ht. unfold deleteVideo, target in *. run_handler.
  destruct (isValidObjectId (paramId req)); [|done].
  run_handler. by rewrite Ht.
Qed.

Lemma updateVideoPublishStatus_absent req w :
  target req w = None ->
  updateVideoPublishStatus req w
  = if isValidObjectId (paramId req)
    then (Throw (ApiError 500 "Failed to update video publish status"),
          logged w [EvDb (FindByIdAndUpdate (paramId req))])
    else (Throw CastError, w).
Proof.
  intros Ht. unfold updateVideoPublishStatus, target in *. run_handler.
  destruct (isValidObjectId (paramId req)); [|done].
  run_handler. by rewrite Ht.
Qed.

Lemma updateVideoById_absent req w :
  target req w = None ->
  updateVideoById req w
  = if allBlank req
    then (Throw (ApiError 400 "Please provide All required fields"), w)
    else match publicId (uploadOnCloudinary (filePath req)) with
         | None => (Throw (ApiError 500 "Failed to update thumbnail"),
                    logged w [EvUpload (filePath req)])
         | Some _ =>
             if isValidObjectId (paramId req)
             then (Throw (ApiError 500 "Failed to update video"),
                   logged w [EvUpload (filePath req);
                             EvDb (FindByIdAndUpdate (paramId req))])
             else (Throw CastError, logged w [EvUpload (filePath req)])
         end.
Proof.
  intros Ht. unfold updateVideoById, target, allBlank, publicId in *.
  destruct (forallb _ _); [done|]. run_handler.
  destruct (uploadOnCloudinary (filePath req)) as [up|]; [|done].
  destruct (Js.truthy (up_public_id up)); [|done].
  destruct (up_public_id up); [|done]. run_handler.
  destruct (isValidObjectId (paramId req)); [|done].
  run_handler. rewrite Ht. unfold logged. simpl. by rewrite <- app_assoc.
Qed.

End Absent.

(** C8 (as the code has it).  When no record exists for the identifier of
    the request, the operation is aborted with an error and the cache is
    left as it was, no invalidation having been attempted.  The error is
    the 404 "Video not found" for the item read only; delete, the
    publish-status change and update by id answer a missing record with a
    500 "Failed to ..." error (update by id after its own checks of the
    fields and of the upload).  An identifier that is not well formed is
    refused by the cast before the store is reached. *)
Theorem C8_missing_record `{C : Collaborators} (req : Request) (w : World) :
  target req w = None ->
  getVideoById req w
  = (if isValidObjectId (paramId req)
     then (Throw (ApiError 404 "Video not found"),
           logged w [EvCacheGet (videoKey req); EvDb (FindById (paramId req))])
     else (Throw CastError, logged w [EvCacheGet (videoKey req)]))
  /\ deleteVideo req w
     = (if isValidObjectId (paramId req)
        then (Throw (ApiError 500 "Failed to delete video"),
              logged w [EvDb (FindByIdAndDelete (paramId req))])
        else (Throw CastError, w))
  /\ updateVideoPublishStatus req w
     = (if isValidObjectId (paramId req)
        then (Throw (ApiError 500 "Failed to update video publish status"),
              logged w [EvDb (FindByIdAndUpdate (paramId req))])
        else (Throw CastError, w))
  /\ (allBlank req = false ->
      isValidObjectId (paramId req) = true ->
      forall pid, publicId (uploadOnCloudinary (filePath req)) = Some pid ->
      updateVideoById req w
      = (Throw (ApiError 500 "Failed to update video"),
         logged w [EvUpload (filePath req); EvDb (FindByIdAndUpdate (paramId req))]))
  /\ (forall h, h ∈ [getVideoById; deleteVideo; updateVideoPublishStatus; updateVideoById] ->
      exists e evs,
        h req w = (Throw e, logged w evs)
        /\ forallb (fun ev => negb (isInvalidation ev)) evs = true).
Proof.
  intros Ht.
  pose proof (deleteVideo_absent req w Ht) as Hdel.
  pose proof (updateVideoPublishStatus_absent req w Ht) as Hpub.
  pose proof (updateVideoById_absent req w Ht) as Hupd.
  assert (Hget : getVideoById req w
                 = if isValidObjectId (paramId req)
                   then (Throw (ApiError 404 "Video not found"),
                         logged w [EvCacheGet (videoKey req);
                                   EvDb (FindById (paramId req))])
                   else (Throw CastError, logged w [EvCacheGet (videoKey req)])).
  { destruct (isValidObjectId (paramId req)) eqn:Hv.
    - by apply getVideoById_absent.
    - by apply getVideoById_malformed. }
  assert (Hsame : w = logged w []).
  { destruct w. unfold logged. simpl. by rewrite app_nil_r. }
  repeat split; try done.
  - intros Hblank Hv pid Hpid. by rewrite Hupd, Hblank, Hpid, Hv.
  - intros h Hh.
    repeat (apply elem_of_cons in Hh as [->|Hh]); [| | | |by apply elem_of_nil in Hh].
    + rewrite Hget. destruct (isValidObjectId (paramId req)); by eexists _, _.
    + rewrite Hdel. destruct (isValidObjectId (paramId req)).
      * by eexists _, _.
      * exists CastError, []. by rewrite <- Hsame.
    + rewrite Hpub. destruct (isValidObjectId (paramId req)).
      * by eexists _, _.
      * exists CastError, []. by rewrite <- Hsame.
    + rewrite Hupd. destruct (allBlank req).
      * eexists _, []. by rewrite <- Hsame.
      * destruct (publicId _); [|by eexists _, _].
        destruct (isValidObjectId (paramId req)); by eexists _, _.
Qed.

Lemma C8_missing_record_witness :
  let req := Demo.request [] "000000000000000000000009" in
  getVideoById (C := Demo.collaborators) req Demo.world0
  = (Throw (ApiError 404 "Video not found"),
     logged Demo.world0 [EvCacheGet (videoKey req); EvDb (FindById (paramId req))]).
Proof.
  intros req.
  apply (proj1 (C8_missing_record (C := Demo.collaborators) req Demo.world0 eq_refl)).
Defined.

(** C8, the claim as stated, fails for delete and for the publish-status
    change: for a well-formed identifier with no record they fail with a
    500 error, not with the not-found error. *)
Lemma C8_delete_of_missing_record_is_500 :
  let req := Demo.request [] "000000000000000000000009" in
  target (C := Demo.collaborators) req Demo.world0 = None
  /\ fst (deleteVideo (C := Demo.collaborators) req Demo.world0)
     = Throw (ApiError 500 "Failed to delete video")
  /\ fst (updateVideoPublishStatus (C := Demo.collaborators) req Demo.world0)
     = Throw (ApiError 500 "Failed to update video publish status")
  /\ fst (getVideoById (C := Demo.collaborators) req Demo.world0)
     = Throw (ApiError 404 "Video not found").
Proof. repeat split; vm_compute; reflexivity. Qed.

(** ** Related videos *)

Lemma isRelated_spec `{C : Collaborators} id subjectTags (v : Video) :
  isRelated id subjectTags v = true
  <-> _id v <> castObjectId id /\ exists t, t ∈ tags v /\ t ∈ subjectTags.
Proof.
  unfold isRelated, hasId. rewrite andb_true_iff, negb_true_iff, tagsIn_spec.
  by rewrite String.eqb_neq.
Qed.

(** C9.  For a subject that exists, the related-videos request answers
    with exactly the stored records, in store order, that are not the
    subject and share a tag with it, each with its owner resolved to the
    projected account stub: the identifier, user name, full name, e-mail
    and avatar of the account the record refers to, without its cover
    image, and nothing when there is no such account; the other fields of
    the record are kept.  The publication flag plays no part: every
    unpublished record that shares a tag with the subject is in the
    answer, although no listing query admits it. *)
Theorem C9_related_videos `{C : Collaborators} (req : Request) (w : World) (subject : Video) :
  isValidObjectId (paramId req) = true ->
  target req w = Some subject ->
  fst (getRelatedVideos req w)
  = Ok (mkReply 200
          (mkResponse 200
             (DataDocs (resolveOwner false (users w) <$>
                        List.filter (isRelated (paramId req) (tags subject)) (videos w)))
             (Some "Related videos found")))
  /\ _id subject = castObjectId (paramId req)
  /\ (forall v,
        v ∈ List.filter (isRelated (paramId req) (tags subject)) (videos w)
        <-> v ∈ videos w
            /\ _id v <> _id subject
            /\ exists t, t ∈ tags v /\ t ∈ tags subject)
  /\ (forall v,
        match List.find (fun u => String.eqb (user_id u) (owner v)) (users w) with
        | Some u =>
            owner (resolveOwner false (users w) v)
            = Some (mkStub (user_id u) (username u) (fullName u) (email u)
                           (avatar u) None)
            /\ user_id u = owner v
        | None => owner (resolveOwner false (users w) v) = None
        end
        /\ resolveOwner false (users w) v
           = mkVideo (_id v) (title v) (description v) (tags v) (videoAsset v)
                     (thumbnail v) (duration v)
                     (owner (resolveOwner false (users w) v))
                     (isPublished v) (createdAt v))
  /\ (forall v,
        v ∈ videos w -> isPublished v = false ->
        _id v <> _id subject ->
        (exists t, t ∈ tags v /\ t ∈ tags subject) ->
        resolveOwner false (users w) v
          ∈ resolveOwner false (users w) <$>
              List.filter (isRelated (paramId req) (tags subject)) (videos w)
        /\ forall sq, matchesSearch sq v = false).
Proof.
  intros Hv Ht.
  assert (Hid : _id subject = castObjectId (paramId req)).
  { unfold target in Ht. apply find_some in Ht as [_ Hh].
    by apply String.eqb_eq in Hh. }
  assert (Hmem : forall v,
             v ∈ List.filter (isRelated (paramId req) (tags subject)) (videos w)
             <-> v ∈ videos w /\ _id v <> _id subject
                 /\ exists t, t ∈ tags v /\ t ∈ tags subject).
  { intros v. rewrite list_elem_of_In, filter_In, <- list_elem_of_In.
    by rewrite isRelated_spec, Hid. }
  split; [by rewrite (getRelatedVideos_found req w subject)|].
  split; [done|]. split; [done|]. split.
  { intros v. split; [|done]. unfold resolveOwner. simpl.
    destruct (List.find _ (users w)) as [u|] eqn:Hu; [|done].
    split; [done|]. apply find_some in Hu as [_ Hu]. by apply String.eqb_eq. }
  intros v Hin Hunpub Hne Htag. split.
  - apply list_elem_of_fmap_2. by apply Hmem.
  - intros sq. unfold matchesSearch. by rewrite Hunpub.
Qed.

Lemma C9_related_videos_witness :
  let req := Demo.request [] "000000000000000000000001" in
  fst (getRelatedVideos (C := Demo.collaborators) req Demo.world0)
  = Ok (mkReply 200
          (mkResponse 200
             (DataDocs (resolveOwner false (users Demo.world0) <$>
                        List.filter (isRelated (C := Demo.collaborators)
                                       (paramId req) (tags Demo.cats))
                                    (videos Demo.world0)))
             (Some "Related videos found")))
  /\ owner (resolveOwner false (users Demo.world0) Demo.draft)
     = Some (mkStub "0000000000000000000000a1" "alice" "Alice A" "alice@example.org"
                    "alice.png" None).
Proof.
  intros req. split.
  - apply (proj1 (C9_related_videos (C := Demo.collaborators) req Demo.world0 Demo.cats
                    eq_refl eq_refl)).
  - apply (proj1 (proj1 (proj1 (proj2 (proj2 (proj2
             (C9_related_videos (C := Demo.collaborators) req Demo.world0 Demo.cats
                eq_refl eq_refl)))) Demo.draft))).
Defined.

Example demo_related_unpublished :
  fst (getRelatedVideos (C := Demo.collaborators)
         (Demo.request [] "000000000000000000000001") Demo.world0)
  = Ok (mkReply 200
          (mkResponse 200 (DataDocs [resolveOwner false [Demo.alice] Demo.draft])
                      (Some "Related videos found")))
  /\ isPublished Demo.draft = false.
Proof. split; vm_compute; reflexivity. Qed.

(** ** Update by id without a thumbnail *)

Lemma trimsToEmpty_spec v :
  Js.trimsToEmpty v = true <-> exists s, v = Some s /\ Js.trim s = "".
Proof.
  unfold Js.trimsToEmpty. destruct v as [s|].
  - rewrite String.eqb_eq. split; [by exists s|]. by intros (s' & [= <-] & Hs).
  - split; [done|]. by intros (s & Hs & _).
Qed.

Lemma allBlank_spec req :
  allBlank req = true
  <-> exists t d p,
        bodyTitle req = Some t /\ bodyDescription req = Some d /\ filePath req = Some p
        /\ Js.trim t = "" /\ Js.trim d = "" /\ Js.trim p = "".
Proof.
  unfold allBlank. simpl. rewrite !andb_true_iff, !trimsToEmpty_spec. split.
  - intros ((t & Ht & Ht') & (d & Hd & Hd') & (p & Hp & Hp') & _).
    by exists t, d, p.
  - intros (t & d & p & Ht & Hd & Hp & Ht' & Hd' & Hp').
    split; [by exists t|]. split; [by exists d|]. split; [by exists p|done].
Qed.

(** C10 (as the code has it).  An update-by-id request with no attached
    file, the upload of an absent path giving no identifier, fails with
    the 500 "Failed to update thumbnail" error after the upload attempt
    and before any access to the record store or the cache.  The request
    is rejected with the 400 "Please provide All required fields" error
    exactly when title, description and thumbnail path are all three
    present and empty once white space is trimmed from both ends; that
    never happens without an attached file. *)
Theorem C10_update_needs_thumbnail `{C : Collaborators} (req : Request) (w : World) :
  (filePath req = None ->
   publicId (uploadOnCloudinary None) = None ->
   updateVideoById req w
   = (Throw (ApiError 500 "Failed to update thumbnail"), logged w [EvUpload None]))
  /\ ((exists w', updateVideoById req w
                  = (Throw (ApiError 400 "Please provide All required fields"), w'))
      <-> exists t d p,
            bodyTitle req = Some t /\ bodyDescription req = Some d
            /\ filePath req = Some p
            /\ Js.trim t = "" /\ Js.trim d = "" /\ Js.trim p = "").
Proof.
  split.
  - intros Hfile Hup. unfold updateVideoById. rewrite Hfile.
    replace (forallb Js.trimsToEmpty [bodyTitle req; bodyDescription req; None])
      with false by (simpl; by rewrite !andb_false_r).
    run_handler. unfold publicId in *.
    destruct (uploadOnCloudinary None) as [up|]; [|done].
    destruct (Js.truthy (up_public_id up)); [|done].
    by destruct (up_public_id up).
  - rewrite <- allBlank_spec. unfold allBlank, updateVideoById.
    destruct (forallb _ _); [split; [done|by exists w]|].
    split; [|done]. intros [w' Hrun]. run_in Hrun. branch_in Hrun.
Qed.

Lemma C10_update_needs_thumbnail_witness :
  let req :=
    mkRequest [] "000000000000000000000001" (Some "New title") (Some "New text")
              None None None None None "0000000000000000000000a1" in
  updateVideoById (C := Demo.collaborators) req Demo.world0
  = (Throw (ApiError 500 "Failed to update thumbnail"),
     logged Demo.world0 [EvUpload None]).
Proof.
  intros req.
  apply (proj1 (C10_update_needs_thumbnail (C := Demo.collaborators) req Demo.world0)
           eq_refl eq_refl).
Defined.

(** C10, the claim as stated, fails on a title that is a single space:
    with an empty description and an empty path the request is rejected as
    missing required fields although the title is not the empty string.
    A title that is one no-break space (U+00A0, two bytes) is rejected in
    the same way. *)
Lemma C10_blank_title_is_rejected :
  let blank t :=
    mkRequest [] "000000000000000000000001" (Some t) (Some "") None None
              (Some "") None None "0000000000000000000000a1" in
  let req := blank " " in
  let req' := blank (String "194" (String "160" "")) in
  fst (updateVideoById (C := Demo.collaborators) req Demo.world0)
  = Throw (ApiError 400 "Please provide All required fields")
  /\ bodyTitle req <> Some ""
  /\ fst (updateVideoById (C := Demo.collaborators) req' Demo.world0)
     = Throw (ApiError 400 "Please provide All required fields")
  /\ bodyTitle req' <> Some "".
Proof. repeat split; try (vm_compute; reflexivity); discriminate. Qed.

(** ** A listing after a mutation *)

Lemma prefix_append a b : String.prefix a (a +:+ b) = true.
Proof.
  induction a as [|x a IH]; simpl; [by destruct b|].
  by destruct (Ascii.ascii_dec x x).
Qed.

Lemma listingKey_in_group req : String.prefix "all-videos" (listingKey req) = true.
Proof. unfold listingKey, generateCacheKey, buildKey. apply prefix_append. Qed.

Lemma mutation_clears_group `{C : Collaborators}
    (m : Mutation) (req : Request) (w w' : World) (reply : Reply) (k : string) :
  runMutation m req w = (Ok reply, w') ->
  String.prefix "all-videos" k = true ->
  cache w' !! k = None.
Proof.
  intros Hrun Hk. destruct m; simpl in Hrun.
  - unfold publishVideo in Hrun. run_in Hrun. branch_in Hrun.
    all: inv Hrun; simpl; by apply group_gone.
  - unfold updateVideoById in Hrun. run_in Hrun. branch_in Hrun.
    all: inv Hrun; simpl; by apply group_gone.
  - unfold updateAllVideo in Hrun. run_in Hrun. branch_in Hrun.
    all: inv Hrun; simpl; by apply group_gone.
  - unfold deleteVideo in Hrun. run_in Hrun. branch_in Hrun.
    all: inv Hrun; simpl; by apply group_gone.
  - unfold updateVideoPublishStatus in Hrun. run_in Hrun. branch_in Hrun.
    all: inv Hrun; simpl; by apply group_gone.
Qed.

(** Read after write.  The listing request that follows a successful
    mutation is a miss, whatever its parameters and whatever was cached
    before: when the store accepts its query, it is computed from the
    record store as the mutation left it, and stored again. *)
Theorem listing_after_mutation_is_fresh `{C : Collaborators}
    (m : Mutation) (req next : Request) (w w1 : World) (reply : Reply) :
  runMutation m req w = (Ok reply, w1) ->
  ownerFilterOk (query next) = true ->
  listingAccepted next = true ->
  cache w1 !! listingKey next = None
  /\ fst (getAllVideos next w1) = Ok (mkReply 200 (pageResponse (listingPage next w1)))
  /\ cache (snd (getAllVideos next w1)) !! listingKey next
     = Some (pageResponse (listingPage next w1)).
Proof.
  intros Hrun Hok Hacc.
  assert (Hmiss : cache w1 !! listingKey next = None).
  { apply (mutation_clears_group m req w w1 reply); [done|].
    apply listingKey_in_group. }
  split; [done|]. rewrite getAllVideos_miss by done. simpl.
  split; [done|]. apply lookup_insert_eq.
Qed.

Lemma listing_after_mutation_is_fresh_witness :
  let hide :=
    mkRequest [] "000000000000000000000001" None None None (Some false)
              None None None "0000000000000000000000a1" in
  let next := Demo.request [("q", "cats")] "" in
  let w := snd (getAllVideos (C := Demo.collaborators) next Demo.world0) in
  let w1 := snd (updateVideoPublishStatus (C := Demo.collaborators) hide w) in
  cache w !! listingKey next
  = Some (mkResponse 200
            (DataPage [resolveOwner true [Demo.alice] Demo.cats] 1 1 1 false false)
            (Some "Videos found"))
  /\ fst (getAllVideos (C := Demo.collaborators) next w1)
     = Ok (mkReply 200
             (mkResponse 200 (DataPage [] 0 1 1 false false) (Some "Videos found"))).
Proof.
  intros hide next w w1. split; [vm_compute; reflexivity|].
  transitivity (Ok (A := Reply)
                  (mkReply 200 (pageResponse (listingPage (C := Demo.collaborators) next w1))));
    [|vm_compute; reflexivity].
  apply (listing_after_mutation_is_fresh (C := Demo.collaborators) MPublishStatus hide next w w1
           (mkReply 200
              (mkResponse 200
                 (DataVideo
                    (Demo.video "000000000000000000000001" "Cats playing"
                                "Two kittens" ["cats"] false 10))
                 (Some "Video publish status updated"))));
    vm_compute; reflexivity.
Defined.

(** ** A mutation that fails *)

(** A mutation that throws has not invalidated anything: the cache is the
    one it started from and its effects contain no invalidation. *)
Theorem failed_mutation_keeps_cache `{C : Collaborators}
    (m : Mutation) (req : Request) (w w' : World) (e : Exn) :
  runMutation m req w = (Throw e, w') ->
  cache w' = cache w
  /\ exists evs, trace w' = trace w ++ evs
                 /\ forallb (fun ev => negb (isCacheEvent ev)) evs = true.
Proof.
  intros Hrun. destruct m; simpl in Hrun.
  - unfold publishVideo in Hrun. run_in Hrun. branch_in Hrun.
    all: inv Hrun; simpl; (split; [done|]);
      first [ by exists []; rewrite app_nil_r
            | eexists [_; _]; rewrite <- !app_assoc; by simpl ].
  - unfold updateVideoById in Hrun. run_in Hrun. branch_in Hrun.
    all: inv Hrun; simpl; (split; [done|]);
      first [ by exists []; rewrite app_nil_r
            | eexists [_]; rewrite <- ?app_assoc; by simpl
            | eexists [_; _]; rewrite <- !app_assoc; by simpl ].
  - unfold updateAllVideo in Hrun. run_in Hrun. branch_in Hrun.
    all: inv Hrun; simpl; (split; [done|]);
      first [ by exists []; rewrite app_nil_r
            | eexists [_]; rewrite <- ?app_assoc; by simpl ].
  - unfold deleteVideo in Hrun. run_in Hrun. branch_in Hrun.
    all: inv Hrun; simpl; (split; [done|]);
      first [ by exists []; rewrite app_nil_r
            | eexists [_]; rewrite <- ?app_assoc; by simpl ].
  - unfold updateVideoPublishStatus in Hrun. run_in Hrun. branch_in Hrun.
    all: inv Hrun; simpl; (split; [done|]);
      first [ by exists []; rewrite app_nil_r
            | eexists [_]; rewrite <- ?app_assoc; by simpl ].
Qed.

Lemma failed_mutation_keeps_cache_witness :
  let req := Demo.request [] "000000000000000000000009" in
  let stale := mkResponse 200 DataEmpty None in
  let w := mkWorld [Demo.cats] [Demo.alice] {[ "all-videos:" := stale ]} [] in
  let w' := snd (deleteVideo (C := Demo.collaborators) req w) in
  cache w' = cache w
  /\ exists evs, trace w' = trace w ++ evs
                 /\ forallb (fun ev => negb (isCacheEvent ev)) evs = true.
Proof.
  intros req stale w w'.
  apply (failed_mutation_keeps_cache (C := Demo.collaborators) MDelete req w w'
           (ApiError 500 "Failed to delete video")).
  vm_compute. reflexivity.
Defined.

(** ** The sort of a listing *)

(** The sort document of a listing, with [dir] the direction [sortType]
    asks for (descending exactly when it is missing or is ["desc"],
    ascending for any other text).  When [sortBy] is missing the document
    is [createdAt] with [dir]; when [sortBy] is the empty text it is
    [createdAt] descending whatever [sortType] says; a non-empty [sortBy]
    is passed through as the key, whatever it is, with [dir]; except
    [__proto__], which leaves the document empty. *)
Theorem sort_query_passthrough (qs : list (string * string)) :
  let dir := match lookupName "sortType" qs with
             | None => -1
             | Some t => if String.eqb t "desc" then -1 else 1
             end in
  (lookupName "sortBy" qs = None -> sortQueryOf qs = [("createdAt", dir)])
  /\ (lookupName "sortBy" qs = Some "" -> sortQueryOf qs = [("createdAt", -1)])
  /\ (forall field, lookupName "sortBy" qs = Some field ->
        field <> "" -> field <> "__proto__" ->
        sortQueryOf qs = [(field, dir)])
  /\ (lookupName "sortBy" qs = Some "__proto__" -> sortQueryOf qs = [])
  /\ (dir = -1
      <-> lookupName "sortType" qs = None \/ lookupName "sortType" qs = Some "desc").
Proof.
  unfold sortQueryOf. repeat split.
  - intros ->. simpl. by destruct (lookupName "sortType" qs).
  - by intros ->.
  - intros field -> Hne Hproto. simpl.
    apply String.eqb_neq in Hne, Hproto. rewrite Hne, Hproto. simpl.
    by destruct (lookupName "sortType" qs).
  - by intros ->.
  - destruct (lookupName "sortType" qs) as [t|]; [|by left].
    destruct (String.eqb_spec t "desc") as [->|]; [by right|done].
  - intros [->| ->]; reflexivity.
Qed.

Lemma sort_query_passthrough_witness :
  sortQueryOf [("sortBy", "noSuchField"); ("sortType", "asc")] = [("noSuchField", 1)].
Proof.
  apply (proj1 (proj2 (proj2 (sort_query_passthrough
                         [("sortBy", "noSuchField"); ("sortType", "asc")])))
           "noSuchField" eq_refl);
    discriminate.
Defined.

(** ** Publishing a video *)

Section Publish.
Context `{C : Collaborators}.

Lemma publishChecked_true req :
  publishChecked req = true ->
  Js.truthy (videoFilePath req) = true
  /\ Js.truthy (thumbnailFilePath req) = true
  /\ Js.trimsToEmpty (bodyTitle req) = false
  /\ Js.trimsToEmpty (bodyDescription req) = false
  /\ exists t ts, bodyTags req = Some (t :: ts).
Proof.
  unfold publishChecked. rewrite !andb_true_iff, negb_true_iff. simpl.
  rewrite !orb_false_iff. intros [[[Hv Ht] (Hti & Hde & _)] Htags].
  repeat split; try done.
  destruct (bodyTags req) as [[|t ts]|]; try done. by exists t, ts.
Qed.

(** The run of [publishVideo] once its checks passed. *)
Lemma publishVideo_checked req w :
  publishChecked req = true ->
  publishVideo req w
  = match uploadOnCloudinary (videoFilePath req),
          publicId (uploadOnCloudinary (videoFilePath req)) with
    | Some vf, Some vpid =>
        match uploadOnCloudinary (thumbnailFilePath req),
              publicId (uploadOnCloudinary (thumbnailFilePath req)) with
        | Some th, Some tpid =>
            let '(newId, published, now) := schemaDefaults (videos w) in
            let v :=
              mkVideo newId (default "" (bodyTitle req))
                      (default "" (bodyDescription req))
                      (default [] (bodyTags req))
                      (mkAsset (up_secure_url vf) vpid)
                      (mkAsset (up_secure_url th) tpid)
                      (formatDuration (up_duration vf)) (reqUserId req)
                      published now in
            (Ok (mkReply 201 (mkResponse 201 (DataVideo v)
                                         (Some "Video published successfully"))),
             mkWorld (videos w ++ [v]) (users w)
                     (filter (fun kv : string * ApiResponse =>
                                String.prefix "all-videos" kv.1 = false) (cache w))
                     (trace w ++ [EvUpload (videoFilePath req);
                                  EvUpload (thumbnailFilePath req);
                                  EvDb Create; EvCacheDelGroup "all-videos"]))
        | _, _ => (Throw (ApiError 500 "Failed to upload thumbnail file"),
                   logged w [EvUpload (videoFilePath req);
                             EvUpload (thumbnailFilePath req)])
        end
    | _, _ => (Throw (ApiError 500 "Failed to upload video file"),
               logged w [EvUpload (videoFilePath req);
                         EvUpload (thumbnailFilePath req)])
    end.
Proof.
  intros Hc. apply publishChecked_true in Hc as (Hv & Ht & Hti & Hde & t & ts & Htags).
  unfold publishVideo. rewrite Hv, Ht. simpl. rewrite Hti, Hde, Htags.
  run_handler.
  assert (Hlog : forall a b, (trace w ++ [a]) ++ [b] = trace w ++ [a; b])
    by (intros; by rewrite <- app_assoc).
  unfold publicId.
  destruct (uploadOnCloudinary (videoFilePath req)) as [vf|];
    [|unfold logged; by rewrite Hlog].
  destruct (Js.truthy (up_public_id vf)); [|unfold logged; by rewrite Hlog].
  destruct (up_public_id vf) as [vpid|]; [|unfold logged; by rewrite Hlog].
  destruct (uploadOnCloudinary (thumbnailFilePath req)) as [th|];
    [|unfold logged; by rewrite Hlog].
  destruct (Js.truthy (up_public_id th)); [|unfold logged; by rewrite Hlog].
  destruct (up_public_id th) as [tpid|]; [|unfold logged; by rewrite Hlog].
  run_handler. destruct (schemaDefaults (videos w)) as [[newId published] now].
  run_handler. by rewrite <- !app_assoc.
Qed.

(** A publish request is checked before anything is uploaded or stored: a
    missing video or thumbnail file is reported first; then a blank title
    or a blank description, or an empty list of tags, is refused as
    missing fields; a request whose title and description pass and that
    carries no [tags] field at all dies on the read of [tags.length].  In
    each case the world is untouched. *)
Theorem publishVideo_checks_before_upload (req : Request) (w : World) :
  publishChecked req = false ->
  exists e,
    publishVideo req w = (Throw e, w)
    /\ (Js.truthy (videoFilePath req) && Js.truthy (thumbnailFilePath req) = false ->
        e = ApiError 400 "Thumbnail and Video Files are required")
    /\ (Js.truthy (videoFilePath req) && Js.truthy (thumbnailFilePath req) = true ->
        (Js.trimsToEmpty (bodyTitle req) || Js.trimsToEmpty (bodyDescription req) = true
         \/ bodyTags req = Some []) ->
        e = ApiError 400 "Please provide All required fields")
    /\ (Js.truthy (videoFilePath req) && Js.truthy (thumbnailFilePath req) = true ->
        Js.trimsToEmpty (bodyTitle req) || Js.trimsToEmpty (bodyDescription req) = false ->
        bodyTags req = None ->
        e = TypeError).
Proof.
  unfold publishChecked, publishVideo. simpl. intros Hc.
  destruct (Js.truthy (videoFilePath req)), (Js.truthy (thumbnailFilePath req));
    simpl in *;
    try (eexists; split; [reflexivity|]; repeat split; by intros).
  destruct (Js.trimsToEmpty (bodyTitle req)), (Js.trimsToEmpty (bodyDescription req));
    simpl in *;
    try (eexists; split; [reflexivity|]; repeat split; by intros).
  destruct (bodyTags req) as [[|t ts]|]; [| done |].
  - eexists; split; [reflexivity|]. repeat split; by intros.
  - eexists; split; [reflexivity|]. repeat split; try by intros.
    intros _ [?|?]; done.
Qed.

(** Once the checks passed, both files are uploaded, the video first,
    before either result is looked at.  A video upload without identifier
    fails the request with its own error whatever became of the
    thumbnail; a thumbnail upload without identifier fails it next.  The
    record store and the cache are not touched. *)
Theorem publishVideo_upload_failure (req : Request) (w : World) :
  publishChecked req = true ->
  (publicId (uploadOnCloudinary (videoFilePath req)) = None ->
   publishVideo req w
   = (Throw (ApiError 500 "Failed to upload video file"),
      logged w [EvUpload (videoFilePath req); EvUpload (thumbnailFilePath req)]))
  /\ (forall vpid,
        publicId (uploadOnCloudinary (videoFilePath req)) = Some vpid ->
        publicId (uploadOnCloudinary (thumbnailFilePath req)) = None ->
        publishVideo req w
        = (Throw (ApiError 500 "Failed to upload thumbnail file"),
           logged w [EvUpload (videoFilePath req); EvUpload (thumbnailFilePath req)])).
Proof.
  intros Hc. rewrite (publishVideo_checked req w Hc). split.
  - intros Hv. rewrite Hv. by destruct (uploadOnCloudinary (videoFilePath req)).
  - intros vpid Hv Ht. rewrite Hv, Ht.
    destruct (uploadOnCloudinary (videoFilePath req)) as [vf|]; [|done].
    by destruct (uploadOnCloudinary (thumbnailFilePath req)).
Qed.

(** A publish request that passed its checks and whose two uploads gave
    identifiers appends exactly one record to the store, after all the
    records that were there, and answers 201 with that record: it is
    owned by the requesting user, carries the request's title,
    description (when given) and tags, the two uploaded assets and the
    formatted duration of the uploaded video; accounts are unchanged. *)
Theorem publishVideo_creates_record (req : Request) (w : World)
    (vf th : Upload) (vpid tpid : string) :
  publishChecked req = true ->
  uploadOnCloudinary (videoFilePath req) = Some vf ->
  publicId (Some vf) = Some vpid ->
  uploadOnCloudinary (thumbnailFilePath req) = Some th ->
  publicId (Some th) = Some tpid ->
  exists v w',
    publishVideo req w
    = (Ok (mkReply 201 (mkResponse 201 (DataVideo v)
                                   (Some "Video published successfully"))), w')
    /\ videos w' = videos w ++ [v]
    /\ users w' = users w
    /\ owner v = reqUserId req
    /\ (forall t, bodyTitle req = Some t -> title v = t)
    /\ (forall d, bodyDescription req = Some d -> description v = d)
    /\ Some (tags v) = bodyTags req
    /\ videoAsset v = mkAsset (up_secure_url vf) vpid
    /\ thumbnail v = mkAsset (up_secure_url th) tpid
    /\ duration v = formatDuration (up_duration vf)
    /\ (_id v, isPublished v, createdAt v) = schemaDefaults (videos w).
Proof.
  intros Hc Hvf Hvpid Hth Htpid.
  rewrite (publishVideo_checked req w Hc), Hvf, Hvpid, Hth, Htpid.
  apply publishChecked_true in Hc as (_ & _ & Hti & Hde & t & ts & Htags).
  destruct (schemaDefaults (videos w)) as [[newId published] now].
  eexists _, _. split; [reflexivity|]. simpl.
  repeat split; try done.
  - by intros t0 ->.
  - by intros d ->.
  - by rewrite Htags.
Qed.

End Publish.

Lemma publishVideo_checks_before_upload_witness :
  publishVideo (C := Demo.collaborators)
    (mkRequest [] "" (Some "Kittens") (Some "Two kittens") None None None
               (Some "/tmp/v.mp4") (Some "/tmp/t.png") "0000000000000000000000a1")
    Demo.world0
  = (Throw TypeError, Demo.world0).
Proof.
  destruct (publishVideo_checks_before_upload (C := Demo.collaborators)
              (mkRequest [] "" (Some "Kittens") (Some "Two kittens") None None None
                         (Some "/tmp/v.mp4") (Some "/tmp/t.png")
                         "0000000000000000000000a1")
              Demo.world0 eq_refl) as (e & Hrun & _ & _ & Htype).
  rewrite Hrun. by rewrite (Htype eq_refl eq_refl eq_refl).
Defined.

Lemma publishVideo_creates_record_witness :
  let req :=
    mkRequest [] "" (Some "Kittens") (Some "Two kittens") (Some ["cats"]) None None
              (Some "/tmp/v.mp4") (Some "/tmp/t.png") "0000000000000000000000a1" in
  exists v w',
    publishVideo (C := Demo.collaborators) req Demo.world0
    = (Ok (mkReply 201 (mkResponse 201 (DataVideo v)
                                   (Some "Video published successfully"))), w')
    /\ videos w' = videos Demo.world0 ++ [v]
    /\ users w' = users Demo.world0
    /\ owner v = reqUserId req
    /\ (forall t, bodyTitle req = Some t -> title v = t)
    /\ (forall d, bodyDescription req = Some d -> description v = d)
    /\ Some (tags v) = bodyTags req
    /\ videoAsset v = mkAsset "https://cdn//tmp/v.mp4" "cloud//tmp/v.mp4"
    /\ thumbnail v = mkAsset "https://cdn//tmp/t.png" "cloud//tmp/t.png"
    /\ duration v = "42"
    /\ (_id v, isPublished v, createdAt v) = ("000000000000000000001003", true, 3).
Proof.
  intros req.
  apply (publishVideo_creates_record (C := Demo.collaborators) req Demo.world0
           (mkUpload (Some "cloud//tmp/v.mp4") "https://cdn//tmp/v.mp4" (Some 42))
           (mkUpload (Some "cloud//tmp/t.png") "https://cdn//tmp/t.png" (Some 42))
           "cloud//tmp/v.mp4" "cloud//tmp/t.png");
    vm_compute; reflexivity.
Defined.

Lemma publishVideo_upload_failure_witness :
  let req :=
    mkRequest [] "" (Some "Kittens") (Some "Two kittens") (Some ["cats"]) None None
              (Some "/tmp/v.mp4") (Some "/tmp/t.png") "0000000000000000000000a1" in
  let noThumb :=
    {| toLowerCase := Js.asciiLower;
       parseInt := Demo.parseDecimal;
       isValidObjectId := Demo.validId;
       castObjectId := Js.asciiLower;
       regexSearchI := Demo.literalSearchI;
       sortStage := fun _ l => l;
       sortStage_perm := fun _ l => Permutation_refl l;
       storeAccepts := Demo.accepts;
       uploadOnCloudinary := fun path =>
         if bool_decide (path = Some "/tmp/t.png") then None else Demo.upload path;
       formatDuration := fun d => decimal (default 0 d);
       schemaDefaults := fun vs => (Demo.freshId vs, true, Z.of_nat (length vs)) |} in
  publishVideo (C := noThumb) req Demo.world0
  = (Throw (ApiError 500 "Failed to upload thumbnail file"),
     logged Demo.world0 [EvUpload (videoFilePath req); EvUpload (thumbnailFilePath req)]).
Proof.
  intros req noThumb.
  apply (proj2 (publishVideo_upload_failure (C := noThumb) req Demo.world0 eq_refl)
           "cloud//tmp/v.mp4");
    vm_compute; reflexivity.
Defined.

(** ** What an update by id changes *)

(** A successful update by id keeps the number and the order of the
    records and leaves the accounts alone.  Every record keeps its
    identifier, tags, video asset, duration, owner, creation time and
    publication flag; a record with another identifier is unchanged
    altogether; the targeted record takes the title and the description
    of the request where they are given, keeps its own where they are
    not, and takes the uploaded thumbnail. *)
Theorem updateVideoById_touches_one_record `{C : Collaborators}
    (req : Request) (w w' : World) (reply : Reply) :
  updateVideoById req w = (Ok reply, w') ->
  users w' = users w
  /\ length (videos w') = length (videos w)
  /\ exists up pid,
      uploadOnCloudinary (filePath req) = Some up
      /\ publicId (Some up) = Some pid
      /\ forall i v,
          videos w !! i = Some v ->
          exists v',
            videos w' !! i = Some v'
            /\ sameIdentity v v'
            /\ isPublished v' = isPublished v
            /\ (_id v <> castObjectId (paramId req) -> v' = v)
            /\ (_id v = castObjectId (paramId req) ->
                title v' = default (title v) (bodyTitle req)
                /\ description v' = default (description v) (bodyDescription req)
                /\ thumbnail v' = mkAsset (up_secure_url up) pid).
Proof.
  intros Hrun. unfold updateVideoById in Hrun.
  destruct (forallb _ _); [done|]. cbv zeta in Hrun.
  destruct (uploadOnCloudinary (filePath req)) as [up|] eqn:Hup; [|done].
  destruct (publicId (Some up)) as [pid|] eqn:Hpid; [|done].
  run_in Hrun.
  destruct (isValidObjectId (paramId req)); [|done]. run_in Hrun.
  destruct (List.find (hasId (paramId req)) (videos w)) as [found|]; [|done].
  run_in Hrun. inv Hrun. simpl.
  split; [done|]. split; [by rewrite length_fmap|].
  exists up, pid. split; [done|]. split; [done|].
  intros i v Hi. rewrite list_lookup_fmap, Hi. simpl.
  eexists. split; [reflexivity|]. unfold hasId.
  destruct (String.eqb_spec (_id v) (castObjectId (paramId req))) as [He|Hne].
  - repeat split; done.
  - repeat split; done.
Qed.

Lemma updateVideoById_touches_one_record_witness :
  let req :=
    mkRequest [] "000000000000000000000002" (Some "Two dogs") None None None
              (Some "/tmp/t.png") None None "0000000000000000000000a1" in
  let w' := snd (updateVideoById (C := Demo.collaborators) req Demo.world0) in
  users w' = users Demo.world0
  /\ length (videos w') = length (videos Demo.world0)
  /\ exists up pid,
      Demo.upload (filePath req) = Some up
      /\ publicId (Some up) = Some pid
      /\ forall i v,
          videos Demo.world0 !! i = Some v ->
          exists v',
            videos w' !! i = Some v'
            /\ sameIdentity v v'
            /\ isPublished v' = isPublished v
            /\ (_id v <> Js.asciiLower (paramId req) -> v' = v)
            /\ (_id v = Js.asciiLower (paramId req) ->
                title v' = default (title v) (bodyTitle req)
                /\ description v' = default (description v) (bodyDescription req)
                /\ thumbnail v' = mkAsset (up_secure_url up) pid).
Proof.
  intros req w'.
  apply (updateVideoById_touches_one_record (C := Demo.collaborators) req Demo.world0 w'
           (mkReply 200
              (mkResponse 200
                 (DataVideo
                    (mkVideo "000000000000000000000002" "Two dogs" "A puppy" ["dogs"]
                             (mkAsset "v.mp4" "v")
                             (mkAsset "https://cdn//tmp/t.png" "cloud//tmp/t.png")
                             "0:42" "0000000000000000000000a1" true 20))
                 (Some "Video updated")))).
  vm_compute. reflexivity.
Defined.

(** ** After a delete *)

Lemma find_after_filter_out {A} (f : A -> bool) (l : list A) :
  List.find f (List.filter (fun x => negb (f x)) l) = None.
Proof.
  induction l as [|x l IH]; simpl; [done|].
  destruct (f x) eqn:Hf; simpl; [done|]. by rewrite Hf.
Qed.

(** A successful delete answers 200 with an empty payload, removes every
    record carrying the identifier and keeps all the others in their
    order; afterwards the same identifier is unknown: the item read and
    the related-videos read answer 404 and a second delete fails with the
    500 error. *)
Theorem deleteVideo_then_gone `{C : Collaborators}
    (req : Request) (w w1 : World) (reply : Reply) :
  deleteVideo req w = (Ok reply, w1) ->
  reply = mkReply 200 (mkResponse 200 DataEmpty (Some "Video deleted"))
  /\ videos w1 = List.filter (fun v => negb (hasId (paramId req) v)) (videos w)
  /\ users w1 = users w
  /\ (forall v, v ∈ videos w1 <-> v ∈ videos w /\ _id v <> castObjectId (paramId req))
  /\ fst (getVideoById req w1) = Throw (ApiError 404 "Video not found")
  /\ fst (getRelatedVideos req w1) = Throw (ApiError 404 "Video not found")
  /\ fst (deleteVideo req w1) = Throw (ApiError 500 "Failed to delete video").
Proof.
  intros Hrun. unfold deleteVideo in Hrun. run_in Hrun.
  destruct (isValidObjectId (paramId req)) eqn:Hv; [|done]. run_in Hrun.
  destruct (List.find (hasId (paramId req)) (videos w)) as [found|]; [|done].
  run_in Hrun. inv Hrun. simpl.
  set (w1 := mkWorld _ _ _ _).
  assert (Hgone : target req w1 = None) by apply find_after_filter_out.
  split; [done|]. split; [done|]. split; [done|]. split.
  - intros v. rewrite list_elem_of_In, filter_In, <- list_elem_of_In.
    unfold hasId. by rewrite negb_true_iff, String.eqb_neq.
  - rewrite getVideoById_absent, getRelatedVideos_absent by done.
    rewrite deleteVideo_absent, Hv by done. done.
Qed.

Lemma deleteVideo_then_gone_witness :
  let req := Demo.request [] "000000000000000000000002" in
  let w1 := snd (deleteVideo (C := Demo.collaborators) req Demo.world0) in
  videos w1 = [Demo.cats; Demo.draft]
  /\ fst (getVideoById (C := Demo.collaborators) req w1)
     = Throw (ApiError 404 "Video not found")
  /\ fst (deleteVideo (C := Demo.collaborators) req w1)
     = Throw (ApiError 500 "Failed to delete video").
Proof.
  intros req w1.
  destruct (deleteVideo_then_gone (C := Demo.collaborators) req Demo.world0 w1
              (mkReply 200 (mkResponse 200 DataEmpty (Some "Video deleted"))))
    as (_ & Hvs & _ & _ & Hget & _ & Hdel).
  - vm_compute. reflexivity.
  - split; [rewrite Hvs; vm_compute; reflexivity|]. by split.
Defined.

(** ** The publication flag *)

Section PublishStatus.
Context `{C : Collaborators}.

Lemma updateVideoPublishStatus_ok req w w1 reply :
  updateVideoPublishStatus req w = (Ok reply, w1) ->
  videos w1
  = (fun x => if hasId (paramId req) x
              then mkVideo (_id x) (title x) (description x) (tags x) (videoAsset x)
                           (thumbnail x) (duration x) (owner x)
                           (default (isPublished x) (bodyIsPublished req)) (createdAt x)
              else x) <$> videos w
  /\ users w1 = users w.
Proof.
  intros Hrun. unfold updateVideoPublishStatus in Hrun. run_in Hrun.
  destruct (isValidObjectId (paramId req)); [|done]. run_in Hrun.
  destruct (List.find (hasId (paramId req)) (videos w)) as [found|]; [|done].
  run_in Hrun. by inv Hrun.
Qed.

(** A successful publish-status change keeps the number and the order of
    the records and changes nothing but the publication flag of the
    targeted record, which becomes the flag of the request; when the
    request carries no flag, no record changes at all. *)
Theorem publishStatus_sets_only_the_flag (req : Request) (w w1 : World) (reply : Reply) :
  updateVideoPublishStatus req w = (Ok reply, w1) ->
  users w1 = users w
  /\ length (videos w1) = length (videos w)
  /\ (forall i v,
        videos w !! i = Some v ->
        exists v',
          videos w1 !! i = Some v'
          /\ sameIdentity v v'
          /\ title v' = title v /\ description v' = description v
          /\ thumbnail v' = thumbnail v
          /\ (_id v <> castObjectId (paramId req) -> v' = v)
          /\ (_id v = castObjectId (paramId req) ->
              isPublished v' = default (isPublished v) (bodyIsPublished req)))
  /\ (bodyIsPublished req = None -> videos w1 = videos w).
Proof.
  intros Hrun. apply updateVideoPublishStatus_ok in Hrun as [Hvs Hus].
  split; [done|]. rewrite Hvs. split; [by rewrite length_fmap|]. split.
  - intros i v Hi. rewrite list_lookup_fmap, Hi. simpl.
    eexists. split; [reflexivity|]. unfold hasId.
    destruct (String.eqb_spec (_id v) (castObjectId (paramId req))); by repeat split.
  - intros Hnone. rewrite Hnone. simpl.
    rewrite <- (list_fmap_id (videos w)) at 2.
    apply list_fmap_ext. intros _ v _. simpl.
    destruct (hasId (paramId req) v); by destruct v.
Qed.

(** Once a record was unpublished, no listing computed afterwards shows a
    record with its identifier, whatever the query, the sort and the
    page; and the listing that follows, when the store accepts its query,
    is computed, not read from the cache. *)
Theorem unpublished_leaves_listings (req next : Request) (w w1 : World) (reply : Reply) :
  updateVideoPublishStatus req w = (Ok reply, w1) ->
  bodyIsPublished req = Some false ->
  ownerFilterOk (query next) = true ->
  (listingAccepted next = true ->
   fst (getAllVideos next w1) = Ok (mkReply 200 (pageResponse (listingPage next w1))))
  /\ forall d, d ∈ docs (listingPage next w1) -> _id d <> castObjectId (paramId req).
Proof.
  intros Hrun Hflag Hok. split.
  - intros Hacc. rewrite getAllVideos_miss; [done|done| |done].
    apply (mutation_clears_group MPublishStatus req w w1 reply); [done|].
    apply listingKey_in_group.
  - apply updateVideoPublishStatus_ok in Hrun as [Hvs _].
    intros d Hd Hid. apply listingPage_docs in Hd as (v & Hv & Hm & ->).
    simpl in Hid. rewrite Hvs in Hv.
    apply list_elem_of_fmap in Hv as (x & -> & Hx).
    unfold matchesSearch in Hm. unfold hasId in *.
    destruct (String.eqb_spec (_id x) (castObjectId (paramId req))) as [He|Hne].
    + simpl in Hm. by rewrite Hflag in Hm.
    + done.
Qed.

End PublishStatus.

Lemma publishStatus_sets_only_the_flag_witness :
  let req :=
    mkRequest [] "000000000000000000000003" None None None (Some true)
              None None None "0000000000000000000000a1" in
  let w1 := snd (updateVideoPublishStatus (C := Demo.collaborators) req Demo.world0) in
  videos w1 !! 2%nat
  = Some (Demo.video "000000000000000000000003" "Unlisted kittens" "Not out yet"
                     ["cats"] true 30)
  /\ videos w1 !! 0%nat = Some Demo.cats.
Proof.
  intros req w1.
  destruct (publishStatus_sets_only_the_flag (C := Demo.collaborators) req Demo.world0 w1
              (mkReply 200
                 (mkResponse 200
                    (DataVideo (Demo.video "000000000000000000000003" "Unlisted kittens"
                                           "Not out yet" ["cats"] true 30))
                    (Some "Video publish status updated"))))
    as (_ & _ & Hrec & _).
  - vm_compute. reflexivity.
  - split; vm_compute; reflexivity.
Defined.

Lemma unpublished_leaves_listings_witness :
  let req :=
    mkRequest [] "000000000000000000000001" None None None (Some false)
              None None None "0000000000000000000000a1" in
  let next := Demo.request [("q", "cats")] "" in
  let w1 := snd (updateVideoPublishStatus (C := Demo.collaborators) req Demo.world0) in
  fst (getAllVideos (C := Demo.collaborators) next w1)
  = Ok (mkReply 200 (pageResponse (listingPage (C := Demo.collaborators) next w1))).
Proof.
  intros req next w1.
  apply (proj1 (unpublished_leaves_listings (C := Demo.collaborators) req next
                  Demo.world0 w1
                  (mkReply 200
                     (mkResponse 200
                        (DataVideo (Demo.video "000000000000000000000001" "Cats playing"
                                               "Two kittens" ["cats"] false 10))
                        (Some "Video publish status updated")))
                  ltac:(vm_compute; reflexivity) eq_refl eq_refl) eq_refl).
Defined.

(** ** The related-videos relation *)

Section Related.
Context `{C : Collaborators}.

Lemma tagsIn_sym (a b : Video) : tagsIn (tags a) b = tagsIn (tags b) a.
Proof.
  apply eq_true_iff_eq. rewrite !tagsIn_spec.
  split; intros (t & H1 & H2); by exists t.
Qed.

Lemma tagsIn_nil (v : Video) : tagsIn [] v = false.
Proof. unfold tagsIn. by induction (tags v). Qed.

Lemma no_tags_no_relatives id (vs : list Video) :
  List.filter (isRelated id []) vs = [].
Proof.
  induction vs as [|x l IH]; simpl; [done|].
  unfold isRelated at 1. by rewrite tagsIn_nil, andb_false_r.
Qed.

(** Being related is symmetric: for two requests whose subjects exist,
    the subject of the second is in the answer to the first exactly when
    the subject of the first is in the answer to the second.  A subject
    without tags has no related videos. *)
Theorem related_is_symmetric (ra rb : Request) (w : World) (a b : Video) :
  isValidObjectId (paramId ra) = true ->
  isValidObjectId (paramId rb) = true ->
  target ra w = Some a ->
  target rb w = Some b ->
  (resolveOwner false (users w) b
     ∈ resolveOwner false (users w) <$>
         List.filter (isRelated (paramId ra) (tags a)) (videos w)
   <-> resolveOwner false (users w) a
         ∈ resolveOwner false (users w) <$>
             List.filter (isRelated (paramId rb) (tags b)) (videos w))
  /\ fst (getRelatedVideos ra w)
     = Ok (mkReply 200 (relatedResponse ra w a))
  /\ fst (getRelatedVideos rb w)
     = Ok (mkReply 200 (relatedResponse rb w b))
  /\ (tags a = [] ->
      fst (getRelatedVideos ra w)
      = Ok (mkReply 200 (mkResponse 200 (DataDocs []) (Some "Related videos found")))).
Proof.
  intros Hva Hvb Ha Hb.
  assert (Hia : hasId (paramId ra) a = true /\ a ∈ videos w).
  { unfold target in Ha. apply find_some in Ha as [Hin Hh].
    by rewrite list_elem_of_In. }
  assert (Hib : hasId (paramId rb) b = true /\ b ∈ videos w).
  { unfold target in Hb. apply find_some in Hb as [Hin Hh].
    by rewrite list_elem_of_In. }
  destruct Hia as [Hida Hina], Hib as [Hidb Hinb].
  unfold hasId in Hida, Hidb.
  apply String.eqb_eq in Hida, Hidb.
  assert (Hrel : isRelated (paramId ra) (tags a) b = isRelated (paramId rb) (tags b) a).
  { unfold isRelated, hasId. rewrite <- Hida, <- Hidb, tagsIn_sym.
    by rewrite (String.eqb_sym (_id b) (_id a)). }
  assert (Hinj : forall x y : Video,
             resolveOwner false (users w) x = resolveOwner false (users w) y ->
             _id x = _id y).
  { intros x y Hxy. by apply (f_equal _id) in Hxy. }
  assert (Hmem : forall id ts (x : Video),
             x ∈ videos w ->
             (resolveOwner false (users w) x
                ∈ resolveOwner false (users w) <$> List.filter (isRelated id ts) (videos w)
              <-> exists y, y ∈ videos w /\ isRelated id ts y = true
                            /\ resolveOwner false (users w) y
                               = resolveOwner false (users w) x)).
  { intros id ts x Hx. rewrite list_elem_of_fmap. split.
    - intros (y & Hy & Hin). apply list_elem_of_In, filter_In in Hin as [Hin Hr].
      exists y. by rewrite list_elem_of_In.
    - intros (y & Hin & Hr & Hy). exists y. split; [done|].
      apply list_elem_of_In, filter_In. by rewrite <- list_elem_of_In. }
  split; [|split; [|split]].
  - rewrite !Hmem by done. split.
    + intros (y & Hy & Hr & Heq). exists a. split; [done|]. split; [|done].
      rewrite <- Hrel.
      unfold isRelated, hasId in *. apply Hinj in Heq as Hid.
      apply andb_true_iff in Hr as [Hne Ht]. apply andb_true_iff. split.
      * by rewrite <- Hid.
      * apply tagsIn_spec. apply tagsIn_spec in Ht as (t & Ht1 & Ht2).
        exists t. split; [|done].
        apply (f_equal tags) in Heq. simpl in Heq. by rewrite <- Heq.
    + intros (y & Hy & Hr & Heq). exists b. split; [done|]. split; [|done].
      rewrite Hrel.
      unfold isRelated, hasId in *. apply Hinj in Heq as Hid.
      apply andb_true_iff in Hr as [Hne Ht]. apply andb_true_iff. split.
      * by rewrite <- Hid.
      * apply tagsIn_spec. apply tagsIn_spec in Ht as (t & Ht1 & Ht2).
        exists t. split; [|done].
        apply (f_equal tags) in Heq. simpl in Heq. by rewrite <- Heq.
  - by rewrite (getRelatedVideos_found ra w a).
  - by rewrite (getRelatedVideos_found rb w b).
  - intros Hnil. rewrite (getRelatedVideos_found ra w a) by done. simpl.
    unfold relatedResponse. by rewrite Hnil, no_tags_no_relatives.
Qed.

End Related.

Lemma related_is_symmetric_witness :
  let ra := Demo.request [] "000000000000000000000001" in
  let rb := Demo.request [] "000000000000000000000003" in
  fst (getRelatedVideos (C := Demo.collaborators) rb Demo.world0)
  = Ok (mkReply 200 (relatedResponse (C := Demo.collaborators) rb Demo.world0 Demo.draft)).
Proof.
  intros ra rb.
  apply (proj1 (proj2 (proj2
           (related_is_symmetric (C := Demo.collaborators) ra rb Demo.world0
              Demo.cats Demo.draft eq_refl eq_refl eq_refl eq_refl)))).
Defined.

(** ** Reads do not write *)

(** Whatever its outcome, a read request (listing, single item, related
    videos) leaves the records and the accounts exactly as they were and
    performs no write against the record store; when it fails, the cache
    is unchanged too. *)
Theorem reads_never_write `{C : Collaborators} (req : Request) (w : World)
    (h : Request -> M Reply) :
  h ∈ [getAllVideos; getVideoById; getRelatedVideos] ->
  videos (snd (h req w)) = videos w
  /\ users (snd (h req w)) = users w
  /\ (exists evs, trace (snd (h req w)) = trace w ++ evs
                  /\ forallb (fun ev => negb (isDbWrite ev)) evs = true)
  /\ (forall e, fst (h req w) = Throw e -> cache (snd (h req w)) = cache w).
Proof.
  intros Hh.
  assert (Hnil : trace w = trace w ++ []) by (by rewrite app_nil_r).
  repeat (apply elem_of_cons in Hh as [->|Hh]); [| | |by apply elem_of_nil in Hh].
  - destruct (ownerFilterOk (query req)) eqn:Hok.
    + destruct (cache w !! listingKey req) as [r|] eqn:Hc.
      * rewrite (getAllVideos_hit req w r) by done. simpl.
        repeat split; try done. by eexists.
      * destruct (listingAccepted req) eqn:Hacc.
        -- rewrite (getAllVideos_miss req w) by done. simpl.
           repeat split; try done. by eexists.
        -- rewrite (getAllVideos_rejected req w) by done. simpl.
           repeat split; try done. by eexists.
    + unfold ownerFilterOk in Hok.
      destruct (lookupName "userId" (query req)) as [uid|] eqn:Hu; [|done].
      apply orb_false_iff in Hok as [Hne Hbad]. apply String.eqb_neq in Hne.
      rewrite (getAllVideos_invalid req w uid) by done. simpl.
      repeat split; try done. by exists [].
  - destruct (isValidObjectId (paramId req)) eqn:Hv.
    + destruct (target req w) as [v|] eqn:Ht.
      * rewrite (getVideoById_found req w v) by done. simpl.
        repeat split; try done. by eexists.
      * rewrite (getVideoById_absent req w) by done. simpl.
        repeat split; try done. by eexists.
    + rewrite (getVideoById_malformed req w) by done. simpl.
      repeat split; try done. by eexists.
  - destruct (isValidObjectId (paramId req)) eqn:Hv.
    + destruct (target req w) as [v|] eqn:Ht.
      * rewrite (getRelatedVideos_found req w v) by done. simpl.
        repeat split; try done. by eexists.
      * rewrite (getRelatedVideos_absent req w) by done. simpl.
        repeat split; try done. by eexists.
    + rewrite (getRelatedVideos_invalid req w) by done. simpl.
      repeat split; try done. by exists [].
Qed.

Lemma reads_never_write_witness :
  let req := Demo.request [] "000000000000000000000001" in
  videos (snd (getVideoById (C := Demo.collaborators) req Demo.world0))
  = videos Demo.world0.
Proof.
  intros req.
  apply (proj1 (reads_never_write (C := Demo.collaborators) req Demo.world0
                  (getVideoById (C := Demo.collaborators))
                  ltac:(rewrite !elem_of_cons; auto))).
Defined.

(** ** Updating all videos *)

Section UpdateAll.

(** An update of all videos is refused with the world untouched when
    title and description are both blank, whatever the tags (they are
    not even read); otherwise a request without a [tags] field dies on
    the read of [tags.length], and an empty list of tags is refused as
    missing fields.  A blank title beside a filled description passes,
    unlike in a publish request. *)
Theorem updateAllVideo_checks (req : Request) (w : World) :
  updateAllChecked req = false ->
  exists e,
    updateAllVideo req w = (Throw e, w)
    /\ (Js.trimsToEmpty (bodyTitle req) && Js.trimsToEmpty (bodyDescription req) = true ->
        e = ApiError 400 "Please provide All required fields")
    /\ (Js.trimsToEmpty (bodyTitle req) && Js.trimsToEmpty (bodyDescription req) = false ->
        (bodyTags req = None -> e = TypeError)
        /\ (bodyTags req = Some [] ->
            e = ApiError 400 "Please provide All required fields")).
Proof.
  unfold updateAllChecked, updateAllVideo. simpl. rewrite andb_true_r.
  intros Hc. run_handler.
  destruct (Js.trimsToEmpty (bodyTitle req) && Js.trimsToEmpty (bodyDescription req));
    simpl in *.
  - eexists. split; [reflexivity|]. by repeat split.
  - destruct (bodyTags req) as [[|t ts]|]; [| done |].
    + eexists. split; [reflexivity|]. by repeat split.
    + eexists. split; [reflexivity|]. by repeat split.
Qed.

(** On an empty collection an update of all videos that passed its checks
    fails with the 500 "Failed to update videos" error, after its query
    and without any invalidation: nothing was modified. *)
Theorem updateAllVideo_on_empty_store (req : Request) (w : World) :
  updateAllChecked req = true ->
  videos w = [] ->
  fst (updateAllVideo req w) = Throw (ApiError 500 "Failed to update videos")
  /\ videos (snd (updateAllVideo req w)) = []
  /\ cache (snd (updateAllVideo req w)) = cache w
  /\ trace (snd (updateAllVideo req w)) = trace w ++ [EvDb UpdateMany].
Proof.
  unfold updateAllChecked, updateAllVideo. simpl. rewrite andb_true_r.
  intros Hc Hempty. run_handler.
  apply andb_true_iff in Hc as [Hb Ht]. apply negb_true_iff in Hb. rewrite Hb.
  destruct (bodyTags req) as [[|t ts]|]; try done.
  run_handler. by rewrite Hempty.
Qed.

(** A successful update of all videos answers 200 and rewrites every
    record in place: each one takes the tags of the request, and its
    title and description where they are given, and keeps its identifier,
    owner, assets, duration, creation time and publication flag; no
    record is added or removed. *)
Theorem updateAllVideo_rewrites_every_record (req : Request) (w w' : World) (reply : Reply) :
  updateAllVideo req w = (Ok reply, w') ->
  reply = mkReply 200 (mkResponse 200 (DataText "All Videos Updated") None)
  /\ users w' = users w
  /\ length (videos w') = length (videos w)
  /\ videos w <> []
  /\ forall i v,
      videos w !! i = Some v ->
      exists v',
        videos w' !! i = Some v'
        /\ Some (tags v') = bodyTags req
        /\ title v' = default (title v) (bodyTitle req)
        /\ description v' = default (description v) (bodyDescription req)
        /\ _id v' = _id v /\ owner v' = owner v
        /\ videoAsset v' = videoAsset v /\ thumbnail v' = thumbnail v
        /\ duration v' = duration v /\ createdAt v' = createdAt v
        /\ isPublished v' = isPublished v.
Proof.
  intros Hrun. unfold updateAllVideo in Hrun. run_in Hrun.
  destruct (Js.trimsToEmpty (bodyTitle req) && (Js.trimsToEmpty (bodyDescription req) && true));
    [done|].
  destruct (bodyTags req) as [ts|] eqn:Htags; [|done]. run_in Hrun.
  destruct (length ts =? 0)%nat; [done|]. run_in Hrun.
  match type of Hrun with
  | context [if ?b then _ else _] => destruct b eqn:Hcount; [done|]
  end.
  run_in Hrun. inv Hrun. simpl.
  split; [done|]. split; [done|]. split; [by rewrite length_fmap|]. split.
  - intros Hnil. by rewrite Hnil in Hcount.
  - intros i v Hi. eexists. split.
    + rewrite list_lookup_fmap. unfold Video in *. rewrite Hi. reflexivity.
    + by repeat split.
Qed.

End UpdateAll.

Lemma updateAllVideo_checks_witness :
  updateAllVideo
    (mkRequest [] "" (Some "  ") (Some "") None None None None None
               "0000000000000000000000a1")
    Demo.world0
  = (Throw (ApiError 400 "Please provide All required fields"), Demo.world0).
Proof.
  destruct (updateAllVideo_checks
              (mkRequest [] "" (Some "  ") (Some "") None None None None None
                         "0000000000000000000000a1")
              Demo.world0 eq_refl) as (e & Hrun & Hblank & _).
  rewrite Hrun. by rewrite (Hblank eq_refl).
Defined.

Lemma updateAllVideo_on_empty_store_witness :
  fst (updateAllVideo
         (mkRequest [] "" (Some "Title") None (Some ["cats"]) None None None None
                    "0000000000000000000000a1")
         (mkWorld [] [Demo.alice] ∅ []))
  = Throw (ApiError 500 "Failed to update videos").
Proof.
  apply (proj1 (updateAllVideo_on_empty_store
                  (mkRequest [] "" (Some "Title") None (Some ["cats"]) None None None None
                             "0000000000000000000000a1")
                  (mkWorld [] [Demo.alice] ∅ []) eq_refl eq_refl)).
Defined.

Lemma updateAllVideo_rewrites_every_record_witness :
  let req :=
    mkRequest [] "" (Some "Pets") None (Some ["pets"]) None None None None
              "0000000000000000000000a1" in
  let w' := snd (updateAllVideo req Demo.world0) in
  exists v',
    videos w' !! 1%nat = Some v'
    /\ Some (tags v') = bodyTags req
    /\ title v' = default (title Demo.dogs) (bodyTitle req)
    /\ description v' = default (description Demo.dogs) (bodyDescription req)
    /\ _id v' = _id Demo.dogs /\ owner v' = owner Demo.dogs
    /\ videoAsset v' = videoAsset Demo.dogs /\ thumbnail v' = thumbnail Demo.dogs
    /\ duration v' = duration Demo.dogs /\ createdAt v' = createdAt Demo.dogs
    /\ isPublished v' = isPublished Demo.dogs.
Proof.
  intros req w'.
  destruct (updateAllVideo_rewrites_every_record req
              Demo.world0 w'
              (mkReply 200 (mkResponse 200 (DataText "All Videos Updated") None)))
    as (_ & _ & _ & _ & Hrec).
  - vm_compute. reflexivity.
  - apply (Hrec 1%nat Demo.dogs). reflexivity.
Defined.

(** ** What a listing counts *)

(** The records a listing matches are, up to the order the sort gives
    them, the stored records that pass the filter, each once, with the
    owner resolved: the total it reports is the number of stored records
    that are published and pass the query and owner filters, whatever the
    sort field, the direction, the page and the limit.  Every record on
    the page is one of them, hence published; and the has-previous flag
    is set exactly from the second page on. *)
Theorem listing_counts_matching_records `{C : Collaborators} (req : Request) (w : World) :
  listingMatches req w
    ≡ₚ resolveOwner true (users w) <$>
         List.filter (matchesSearch (searchQueryOf (query req))) (videos w)
  /\ totalDocs (listingPage req w)
     = Z.of_nat (length (List.filter (matchesSearch (searchQueryOf (query req)))
                                     (videos w)))
  /\ (forall d, d ∈ docs (listingPage req w) ->
        isPublished d = true /\ d ∈ listingMatches req w)
  /\ (forall v, v ∈ videos w ->
        matchesSearch (searchQueryOf (query req)) v = true ->
        resolveOwner true (users w) v ∈ listingMatches req w)
  /\ (pg_hasPrevPage (listingPage req w) = true <-> 1 < pg_page (listingPage req w)).
Proof.
  assert (Hperm : listingMatches req w
                    ≡ₚ resolveOwner true (users w) <$>
                         List.filter (matchesSearch (searchQueryOf (query req))) (videos w)).
  { unfold listingMatches, runPipeline. by rewrite sortStage_perm. }
  split; [done|]. split; [|split; [|split]].
  - unfold listingPage, paginate. cbn [totalDocs].
    by rewrite Hperm, length_fmap.
  - intros d Hd. split.
    + apply listingPage_docs in Hd as (v & _ & Hm & ->). simpl.
      unfold matchesSearch in Hm. by destruct (isPublished v).
    + unfold listingPage, paginate, pageSlice in Hd. cbn [docs] in Hd.
      by apply subseteq_take, subseteq_drop in Hd.
  - intros v Hv Hm. rewrite Hperm. apply list_elem_of_fmap_2.
    apply list_elem_of_In, filter_In. by rewrite <- list_elem_of_In.
  - unfold listingPage, paginate. cbn [pg_hasPrevPage pg_page]. apply Z.ltb_lt.
Qed.
